(** * GC9A01 round-LCD driver: transport adapter and protocol engine

    A shallow embedding of [lib/lcd_hal/lcd_hal.c] and
    [lib/gc9a01/gc9a01_driver.c].  Every C function that returns [void]
    becomes a state transformer over a record holding what the outside
    world can observe:

    - [trace]: the calls that cross the transport-adapter boundary, in
      program order (pin writes, delays, and every byte handed to
      [LCD_HAL_SPI_WriteByte]);
    - [datar]: the bytes actually stored into the SPI data register;
    - [statr] / [reads]: the SPI status register, read as a volatile:
      the n-th read returns [statr n], and [reads] counts the reads made.

    Integers are [Z]; the C widths are written out where they matter. *)

From Stdlib Require Import ZArith List Bool Lia.
Import ListNotations.
Open Scope Z_scope.

(** ** lcd_config.h *)

Inductive pin : Type := LCD_RST_PIN | LCD_DC_PIN | LCD_CS_PIN | LCD_BL_PIN.

Definition pin_eqb (p q : pin) : bool :=
  match p, q with
  | LCD_RST_PIN, LCD_RST_PIN | LCD_DC_PIN, LCD_DC_PIN
  | LCD_CS_PIN, LCD_CS_PIN | LCD_BL_PIN, LCD_BL_PIN => true
  | _, _ => false
  end.

Definition LCD_WIDTH : Z := 240.
Definition LCD_HEIGHT : Z := 240.
Definition LCD_GPIO_INVERTED : bool := false.

(** Physical pin levels of ch32fun. *)
Definition FUN_LOW : bool := false.
Definition FUN_HIGH : bool := true.

(** ** Observable world *)

Inductive event : Type :=
| funDigitalWrite (p : pin) (level : bool)
| Delay_Us (n : Z)
| Delay_Ms (n : Z)
| SPI_WriteByte (b : Z).

Record state : Type := mkState {
  statr : nat -> Z;
  reads : nat;
  datar : list Z;
  trace : list event
}.

Definition action : Type := state -> state.

Definition seq (f g : action) : action := fun st => g (f st).
Notation "f ;; g" := (seq f g) (at level 61, right associativity).

Definition skip : action := fun st => st.

Definition emit (e : event) : action := fun st =>
  mkState (statr st) (reads st) (datar st) (trace st ++ [e]).

(** [SPI1->STATR] as an rvalue: one volatile read. *)
Definition read_STATR (st : state) : Z * state :=
  (statr st (reads st),
   mkState (statr st) (S (reads st)) (datar st) (trace st)).

(** [SPI1->DATAR = Value;] *)
Definition write_DATAR (Value : Z) : action := fun st =>
  mkState (statr st) (reads st) (datar st ++ [Value]) (trace st).

(** C integer widths. *)
Definition wrap16 (z : Z) : Z := z mod 65536.
Definition UINT32_MAX : Z := 4294967295.

(** ** lcd_hal.c *)

Definition LCD_HAL_DigitalWrite (Pin : pin) (Value : Z) : action :=
  if LCD_GPIO_INVERTED
  then emit (funDigitalWrite Pin (if Value =? 0 then FUN_HIGH else FUN_LOW))
  else emit (funDigitalWrite Pin (if Value =? 0 then FUN_LOW else FUN_HIGH)).

Definition LCD_HAL_Delay_ms (ms : Z) : action := emit (Delay_Ms ms).
Definition LCD_HAL_Delay_us (us : Z) : action := emit (Delay_Us us).

(** The two status bits the driver polls: [STATR & (1 << 1)] (TXE) and
    [STATR & (1 << 7)] (BSY), as C truth values. *)
Definition TXE (s : Z) : bool := negb (Z.land s (Z.shiftl 1 1) =? 0).
Definition BSY (s : Z) : bool := negb (Z.land s (Z.shiftl 1 7) =? 0).

(** [while (cond(SPI1->STATR) && timeout--) {}] for a [uint32_t timeout].
    Each turn reads the register once; when the condition holds the
    post-decrement is evaluated: its value is the old counter, and a
    counter that was already 0 wraps to [UINT32_MAX] as the loop exits.
    The recursion is on the counter itself.  The result is the value of
    [timeout] after the loop. *)
Fixpoint busy_wait (cond : Z -> bool) (timeout : nat) (st : state) : Z * state :=
  let (s, st1) := read_STATR st in
  if cond s then
    match timeout with
    | O => (UINT32_MAX, st1)
    | S t => busy_wait cond t st1
    end
  else (Z.of_nat timeout, st1).

Definition SPI_TIMEOUT : nat := Z.to_nat 100000.

(** The first step records the call in [trace]: the byte as the caller
    hands it over, whatever the peripheral then does with it.  The rest
    is the body of the C function. *)
Definition LCD_HAL_SPI_WriteByte (Value : Z) : action := fun st =>
  let st := emit (SPI_WriteByte Value) st in
  let (timeout, st) := busy_wait (fun s => negb (TXE s)) SPI_TIMEOUT st in
  if timeout =? 0 then st
  else
    let st := write_DATAR Value st in
    let (_, st) := busy_wait BSY SPI_TIMEOUT st in
    st.

(** [for (i = 0; i < n; i++) body(i);] with a 16-bit counter and [n] a
    16-bit value, so the counter never wraps before the test fails. *)
Fixpoint for_count (k : nat) (i : Z) (body : Z -> action) : action :=
  match k with
  | O => skip
  | S k' => body i ;; for_count k' (i + 1) body
  end.

Definition for_lt (n : Z) (body : Z -> action) : action :=
  for_count (Z.to_nat n) 0 body.

(** ** gc9a01_driver.c: communication layer *)

Definition GC9A01_SendCommand (cmd : Z) : action :=
  LCD_HAL_DigitalWrite LCD_CS_PIN 0 ;;
  LCD_HAL_Delay_us 1 ;;
  LCD_HAL_DigitalWrite LCD_DC_PIN 0 ;;
  LCD_HAL_Delay_us 1 ;;
  LCD_HAL_SPI_WriteByte cmd ;;
  LCD_HAL_Delay_us 1.

Definition GC9A01_SendData (data : Z) : action :=
  LCD_HAL_DigitalWrite LCD_DC_PIN 1 ;;
  LCD_HAL_Delay_us 1 ;;
  LCD_HAL_SPI_WriteByte data ;;
  LCD_HAL_Delay_us 1 ;;
  LCD_HAL_DigitalWrite LCD_CS_PIN 1 ;;
  LCD_HAL_Delay_us 10.

Definition GC9A01_Reset : action :=
  LCD_HAL_DigitalWrite LCD_CS_PIN 0 ;;
  LCD_HAL_Delay_ms 100 ;;
  LCD_HAL_DigitalWrite LCD_RST_PIN 0 ;;
  LCD_HAL_Delay_ms 100 ;;
  LCD_HAL_DigitalWrite LCD_RST_PIN 1 ;;
  LCD_HAL_Delay_ms 100.

(** ** gc9a01_driver.c: initialization *)

Definition GC9A01_InitRegisters : action :=
  GC9A01_SendCommand 0xEF ;;
  GC9A01_SendCommand 0xEB ;;
  GC9A01_SendData 0x14 ;;

  GC9A01_SendCommand 0xFE ;;
  GC9A01_SendCommand 0xEF ;;

  GC9A01_SendCommand 0xEB ;;
  GC9A01_SendData 0x14 ;;

  GC9A01_SendCommand 0x84 ;;
  GC9A01_SendData 0x40 ;;

  GC9A01_SendCommand 0x85 ;;
  GC9A01_SendData 0xFF ;;
  GC9A01_SendCommand 0x86 ;;
  GC9A01_SendData 0xFF ;;
  GC9A01_SendCommand 0x87 ;;
  GC9A01_SendData 0xFF ;;
  GC9A01_SendCommand 0x88 ;;
  GC9A01_SendData 0x0A ;;
  GC9A01_SendCommand 0x89 ;;
  GC9A01_SendData 0x21 ;;
  GC9A01_SendCommand 0x8A ;;
  GC9A01_SendData 0x00 ;;
  GC9A01_SendCommand 0x8B ;;
  GC9A01_SendData 0x80 ;;
  GC9A01_SendCommand 0x8C ;;
  GC9A01_SendData 0x01 ;;
  GC9A01_SendCommand 0x8D ;;
  GC9A01_SendData 0x01 ;;
  GC9A01_SendCommand 0x8E ;;
  GC9A01_SendData 0xFF ;;
  GC9A01_SendCommand 0x8F ;;
  GC9A01_SendData 0xFF ;;

  GC9A01_SendCommand 0xB6 ;;
  GC9A01_SendData 0x00 ;;
  GC9A01_SendData 0x20 ;;

  GC9A01_SendCommand 0x36 ;;
  GC9A01_SendData 0x08 ;;

  GC9A01_SendCommand 0x3A ;;
  GC9A01_SendData 0x05 ;;

  GC9A01_SendCommand 0x90 ;;
  GC9A01_SendData 0x08 ;;
  GC9A01_SendData 0x08 ;;
  GC9A01_SendData 0x08 ;;
  GC9A01_SendData 0x08 ;;

  GC9A01_SendCommand 0xBD ;;
  GC9A01_SendData 0x06 ;;
  GC9A01_SendCommand 0xBC ;;
  GC9A01_SendData 0x00 ;;
  GC9A01_SendCommand 0xFF ;;
  GC9A01_SendData 0x60 ;;
  GC9A01_SendData 0x01 ;;
  GC9A01_SendData 0x04 ;;
  GC9A01_SendCommand 0xC3 ;;
  GC9A01_SendData 0x13 ;;
  GC9A01_SendCommand 0xC4 ;;
  GC9A01_SendData 0x13 ;;
  GC9A01_SendCommand 0xC9 ;;
  GC9A01_SendData 0x22 ;;
  GC9A01_SendCommand 0xBE ;;
  GC9A01_SendData 0x11 ;;

  GC9A01_SendCommand 0xE1 ;;
  GC9A01_SendData 0x10 ;;
  GC9A01_SendData 0x0E ;;

  GC9A01_SendCommand 0xDF ;;
  GC9A01_SendData 0x21 ;;
  GC9A01_SendData 0x0c ;;
  GC9A01_SendData 0x02 ;;

  GC9A01_SendCommand 0xF0 ;;
  GC9A01_SendData 0x45 ;;
  GC9A01_SendData 0x09 ;;
  GC9A01_SendData 0x08 ;;
  GC9A01_SendData 0x08 ;;
  GC9A01_SendData 0x26 ;;
  GC9A01_SendData 0x2A ;;

  GC9A01_SendCommand 0xF1 ;;
  GC9A01_SendData 0x43 ;;
  GC9A01_SendData 0x70 ;;
  GC9A01_SendData 0x72 ;;
  GC9A01_SendData 0x36 ;;
  GC9A01_SendData 0x37 ;;
  GC9A01_SendData 0x6F ;;

  GC9A01_SendCommand 0xF2 ;;
  GC9A01_SendData 0x45 ;;
  GC9A01_SendData 0x09 ;;
  GC9A01_SendData 0x08 ;;
  GC9A01_SendData 0x08 ;;
  GC9A01_SendData 0x26 ;;
  GC9A01_SendData 0x2A ;;

  GC9A01_SendCommand 0xF3 ;;
  GC9A01_SendData 0x43 ;;
  GC9A01_SendData 0x70 ;;
  GC9A01_SendData 0x72 ;;
  GC9A01_SendData 0x36 ;;
  GC9A01_SendData 0x37 ;;
  GC9A01_SendData 0x6F ;;

  GC9A01_SendCommand 0xED ;;
  GC9A01_SendData 0x1B ;;
  GC9A01_SendData 0x0B ;;

  GC9A01_SendCommand 0xAE ;;
  GC9A01_SendData 0x77 ;;

  GC9A01_SendCommand 0xCD ;;
  GC9A01_SendData 0x63 ;;

  GC9A01_SendCommand 0x70 ;;
  GC9A01_SendData 0x07 ;;
  GC9A01_SendData 0x07 ;;
  GC9A01_SendData 0x04 ;;
  GC9A01_SendData 0x0E ;;
  GC9A01_SendData 0x0F ;;
  GC9A01_SendData 0x09 ;;
  GC9A01_SendData 0x07 ;;
  GC9A01_SendData 0x08 ;;
  GC9A01_SendData 0x03 ;;

  GC9A01_SendCommand 0xE8 ;;
  GC9A01_SendData 0x34 ;;

  GC9A01_SendCommand 0x62 ;;
  GC9A01_SendData 0x18 ;;
  GC9A01_SendData 0x0D ;;
  GC9A01_SendData 0x71 ;;
  GC9A01_SendData 0xED ;;
  GC9A01_SendData 0x70 ;;
  GC9A01_SendData 0x70 ;;
  GC9A01_SendData 0x18 ;;
  GC9A01_SendData 0x0F ;;
  GC9A01_SendData 0x71 ;;
  GC9A01_SendData 0xEF ;;
  GC9A01_SendData 0x70 ;;
  GC9A01_SendData 0x70 ;;

  GC9A01_SendCommand 0x63 ;;
  GC9A01_SendData 0x18 ;;
  GC9A01_SendData 0x11 ;;
  GC9A01_SendData 0x71 ;;
  GC9A01_SendData 0xF1 ;;
  GC9A01_SendData 0x70 ;;
  GC9A01_SendData 0x70 ;;
  GC9A01_SendData 0x18 ;;
  GC9A01_SendData 0x13 ;;
  GC9A01_SendData 0x71 ;;
  GC9A01_SendData 0xF3 ;;
  GC9A01_SendData 0x70 ;;
  GC9A01_SendData 0x70 ;;

  GC9A01_SendCommand 0x64 ;;
  GC9A01_SendData 0x28 ;;
  GC9A01_SendData 0x29 ;;
  GC9A01_SendData 0xF1 ;;
  GC9A01_SendData 0x01 ;;
  GC9A01_SendData 0xF1 ;;
  GC9A01_SendData 0x00 ;;
  GC9A01_SendData 0x07 ;;

  GC9A01_SendCommand 0x66 ;;
  GC9A01_SendData 0x3C ;;
  GC9A01_SendData 0x00 ;;
  GC9A01_SendData 0xCD ;;
  GC9A01_SendData 0x67 ;;
  GC9A01_SendData 0x45 ;;
  GC9A01_SendData 0x45 ;;
  GC9A01_SendData 0x10 ;;
  GC9A01_SendData 0x00 ;;
  GC9A01_SendData 0x00 ;;
  GC9A01_SendData 0x00 ;;

  GC9A01_SendCommand 0x67 ;;
  GC9A01_SendData 0x00 ;;
  GC9A01_SendData 0x3C ;;
  GC9A01_SendData 0x00 ;;
  GC9A01_SendData 0x00 ;;
  GC9A01_SendData 0x00 ;;
  GC9A01_SendData 0x01 ;;
  GC9A01_SendData 0x54 ;;
  GC9A01_SendData 0x10 ;;
  GC9A01_SendData 0x32 ;;
  GC9A01_SendData 0x98 ;;

  GC9A01_SendCommand 0x74 ;;
  GC9A01_SendData 0x10 ;;
  GC9A01_SendData 0x85 ;;
  GC9A01_SendData 0x80 ;;
  GC9A01_SendData 0x00 ;;
  GC9A01_SendData 0x00 ;;
  GC9A01_SendData 0x4E ;;
  GC9A01_SendData 0x00 ;;

  GC9A01_SendCommand 0x98 ;;
  GC9A01_SendData 0x3e ;;
  GC9A01_SendData 0x07 ;;

  GC9A01_SendCommand 0x35 ;;
  GC9A01_SendCommand 0x21 ;;

  GC9A01_SendCommand 0x11 ;;
  LCD_HAL_Delay_ms 120 ;;

  GC9A01_SendCommand 0x29 ;;
  LCD_HAL_Delay_ms 20.

Definition GC9A01_Init : action :=
  GC9A01_Reset ;;
  GC9A01_InitRegisters.

(** ** gc9a01_driver.c: display control and drawing *)

(** [x1 - 1] is computed in [int] after the usual promotion of the
    16-bit argument, so it is [-1] when [x1] is 0; the mask then keeps
    the low eight bits of the two's-complement value. *)
Definition GC9A01_SetWindow (x0 y0 x1 y1 : Z) : action :=
  GC9A01_SendCommand 0x2A ;;
  GC9A01_SendData 0x00 ;;
  GC9A01_SendData (Z.land x0 0xFF) ;;
  GC9A01_SendData 0x00 ;;
  GC9A01_SendData (Z.land (x1 - 1) 0xFF) ;;

  GC9A01_SendCommand 0x2B ;;
  GC9A01_SendData 0x00 ;;
  GC9A01_SendData (Z.land y0 0xFF) ;;
  GC9A01_SendData 0x00 ;;
  GC9A01_SendData (Z.land (y1 - 1) 0xFF) ;;

  GC9A01_SendCommand 0x2C.

Definition GC9A01_FillRect (x0 y0 x1 y1 color : Z) : action := fun st =>
  if (x0 >=? LCD_WIDTH) || (y0 >=? LCD_HEIGHT) then st else
  let x1 := if x1 >? LCD_WIDTH then LCD_WIDTH else x1 in
  let y1 := if y1 >? LCD_HEIGHT then LCD_HEIGHT else y1 in
  if (x0 >=? x1) || (y0 >=? y1) then st else
  let st := GC9A01_SetWindow x0 y0 x1 y1 st in
  let color_msb := Z.land (Z.shiftr color 8) 0xFF in
  let color_lsb := Z.land color 0xFF in
  let width := wrap16 (x1 - x0) in
  let height := wrap16 (y1 - y0) in
  let st := LCD_HAL_DigitalWrite LCD_DC_PIN 1 st in
  let st :=
    for_lt width (fun _col =>
      for_lt height (fun _row =>
        LCD_HAL_SPI_WriteByte color_msb ;;
        LCD_HAL_SPI_WriteByte color_lsb)) st in
  let (_, st) := busy_wait BSY SPI_TIMEOUT st in
  LCD_HAL_DigitalWrite LCD_CS_PIN 1 st.

Definition GC9A01_FillScreen (color : Z) : action :=
  GC9A01_FillRect 0 0 LCD_WIDTH LCD_HEIGHT color.

(** The tail of [GC9A01_FillRect] as a pipeline: the final wait for
    BSY to clear, and everything past the two guards.  [FillRect_unfold]
    shows it is the same function. *)
Definition wait_not_busy : action :=
  fun st => snd (busy_wait BSY SPI_TIMEOUT st).

Definition fill_body (x0 y0 x1 y1 color : Z) : action :=
  GC9A01_SetWindow x0 y0 x1 y1 ;;
  LCD_HAL_DigitalWrite LCD_DC_PIN 1 ;;
  for_lt (wrap16 (x1 - x0)) (fun _col =>
    for_lt (wrap16 (y1 - y0)) (fun _row =>
      LCD_HAL_SPI_WriteByte (Z.land (Z.shiftr color 8) 0xFF) ;;
      LCD_HAL_SPI_WriteByte (Z.land color 0xFF))) ;;
  wait_not_busy ;;
  LCD_HAL_DigitalWrite LCD_CS_PIN 1.

(** A caller of the drawing interface: any sequence of these calls. *)
Inductive op : Type :=
| Initialize
| SetWindow (x0 y0 x1 y1 : Z)
| FillRect (x0 y0 x1 y1 color : Z)
| FillScreen (color : Z).

Definition run_op (o : op) : action :=
  match o with
  | Initialize => GC9A01_Init
  | SetWindow x0 y0 x1 y1 => GC9A01_SetWindow x0 y0 x1 y1
  | FillRect x0 y0 x1 y1 color => GC9A01_FillRect x0 y0 x1 y1 color
  | FillScreen color => GC9A01_FillScreen color
  end.

Fixpoint run_ops (os : list op) : action :=
  match os with
  | [] => skip
  | o :: os' => run_op o ;; run_ops os'
  end.

(** Two concrete peripherals: one whose status register always reads
    TXE set and BSY clear, and one whose status register reads 0 forever
    (transmit buffer never empty). *)
Definition spi_ready : state := mkState (fun _ => 2) 0 [] [].
Definition spi_stuck : state := mkState (fun _ => 0) 0 [] [].

(** ** Reading a trace *)

(** [emits f evs]: from every state, [f] appends exactly [evs]. *)
Definition emits (f : action) (evs : list event) : Prop :=
  forall st, trace (f st) = trace st ++ evs.

(** Level last driven on a pin ([None]: not driven yet). *)
Fixpoint level_from (init : option bool) (p : pin) (evs : list event)
  : option bool :=
  match evs with
  | [] => init
  | funDigitalWrite q l :: evs' =>
      level_from (if pin_eqb p q then Some l else init) p evs'
  | _ :: evs' => level_from init p evs'
  end.

Definition level (p : pin) (evs : list event) : option bool :=
  level_from None p evs.

(** The bytes handed to the transport, in order. *)
Fixpoint bytes_of (evs : list event) : list Z :=
  match evs with
  | [] => []
  | SPI_WriteByte b :: evs' => b :: bytes_of evs'
  | _ :: evs' => bytes_of evs'
  end.

(** The most recent command byte: the last byte sent while the
    data/command line was low. *)
Fixpoint last_command_from (dc : option bool) (cur : option Z)
  (evs : list event) : option Z :=
  match evs with
  | [] => cur
  | funDigitalWrite LCD_DC_PIN l :: evs' => last_command_from (Some l) cur evs'
  | SPI_WriteByte b :: evs' =>
      last_command_from dc
        (match dc with Some false => Some b | _ => cur end) evs'
  | _ :: evs' => last_command_from dc cur evs'
  end.

Definition last_command (evs : list event) : option Z :=
  last_command_from None None evs.

(** Delay events in microseconds. *)
Definition delay_us (e : event) : Z :=
  match e with
  | Delay_Us n => n
  | Delay_Ms n => 1000 * n
  | _ => 0
  end.

(** Total delay before the first byte of a trace ([None]: no byte). *)
Fixpoint us_before_first_byte (evs : list event) : option Z :=
  match evs with
  | [] => None
  | SPI_WriteByte _ :: _ => Some 0
  | e :: evs' => option_map (Z.add (delay_us e)) (us_before_first_byte evs')
  end.

(** What follows the first release of the reset line. *)
Fixpoint after_reset_release (evs : list event) : option (list event) :=
  match evs with
  | [] => None
  | funDigitalWrite LCD_RST_PIN true :: evs' => Some evs'
  | _ :: evs' => after_reset_release evs'
  end.

Definition release_to_first_byte_us (evs : list event) : option Z :=
  match after_reset_release evs with
  | Some evs' => us_before_first_byte evs'
  | None => None
  end.

(** Time the reset line is held low: the delays between the first
    drive-low of the reset line and its release. *)
Fixpoint us_before_release (evs : list event) : option Z :=
  match evs with
  | [] => None
  | funDigitalWrite LCD_RST_PIN true :: _ => Some 0
  | e :: evs' => option_map (Z.add (delay_us e)) (us_before_release evs')
  end.

Fixpoint reset_low_us (evs : list event) : option Z :=
  match evs with
  | [] => None
  | funDigitalWrite LCD_RST_PIN false :: evs' => us_before_release evs'
  | _ :: evs' => reset_low_us evs'
  end.

(** ** The wire and the trace

    [always_ready]: the transmit buffer is empty whenever it is polled.
    [wire_in_step]: the data register has received exactly the bytes of
    the trace.  [keeps_wire f]: [f] leaves the status register's future
    alone and, on such a peripheral, keeps the wire in step. *)
Definition always_ready (st : state) : Prop :=
  forall n, TXE (statr st n) = true.

Definition wire_in_step (st : state) : Prop :=
  datar st = bytes_of (trace st).

Definition keeps_wire (f : action) : Prop :=
  forall st,
    statr (f st) = statr st
    /\ (always_ready st -> wire_in_step st -> wire_in_step (f st)).

(** ** Transactions

    The shapes in which the engine talks to the transport.  Each frame
    stands for the events of one source construct. *)
Inductive frame : Type :=
| Cmd (c : Z)        (* GC9A01_SendCommand(c) *)
| Param (d : Z)      (* GC9A01_SendData(d) *)
| Burst (bs : list Z)   (* the burst of GC9A01_FillRect *)
| Pause (ms : Z)         (* LCD_HAL_Delay_ms(ms) *)
| ResetPulse.            (* GC9A01_Reset() *)

Definition frame_events (f : frame) : list event :=
  match f with
  | Cmd c =>
      [funDigitalWrite LCD_CS_PIN false; Delay_Us 1;
       funDigitalWrite LCD_DC_PIN false; Delay_Us 1;
       SPI_WriteByte c; Delay_Us 1]
  | Param d =>
      [funDigitalWrite LCD_DC_PIN true; Delay_Us 1;
       SPI_WriteByte d; Delay_Us 1;
       funDigitalWrite LCD_CS_PIN true; Delay_Us 10]
  | Burst bs =>
      funDigitalWrite LCD_DC_PIN true :: map SPI_WriteByte bs
        ++ [funDigitalWrite LCD_CS_PIN true]
  | Pause ms => [Delay_Ms ms]
  | ResetPulse =>
      [funDigitalWrite LCD_CS_PIN false; Delay_Ms 100;
       funDigitalWrite LCD_RST_PIN false; Delay_Ms 100;
       funDigitalWrite LCD_RST_PIN true; Delay_Ms 100]
  end.

Definition frames_events (fs : list frame) : list event :=
  flat_map frame_events fs.

(** [framed f fs]: [f] emits the events of the frames [fs]. *)
Definition framed (f : action) (fs : list frame) : Prop :=
  emits f (frames_events fs).

(** How frames may follow one another.  The link between two frames is
    the command the next data bytes belong to and the chip-select level.
    A parameter byte needs an open command other than memory-write; a
    pixel burst is non-empty and needs memory-write as the open command
    with chip-select still low. *)
Definition MEMORY_WRITE : Z := 0x2C.

Definition link : Type := (option Z * option bool)%type.

Definition after_frame (s : link) (f : frame) : link :=
  match f with
  | Cmd c => (Some c, Some false)
  | Param _ => (fst s, Some true)
  | Burst _ => (fst s, Some true)
  | Pause _ => s
  | ResetPulse => (fst s, Some false)
  end.

Definition frame_ok (s : link) (f : frame) : bool :=
  match f with
  | Param _ =>
      match fst s with
      | Some c => negb (c =? MEMORY_WRITE)
      | None => false
      end
  | Burst bs =>
      match fst s, snd s, bs with
      | Some c, Some false, _ :: _ => c =? MEMORY_WRITE
      | _, _, _ => false
      end
  | _ => true
  end.

Fixpoint sequenced (s : link) (fs : list frame) : bool :=
  match fs with
  | [] => true
  | f :: fs' => frame_ok s f && sequenced (after_frame s f) fs'
  end.

Definition after_frames (s : link) (fs : list frame) : link :=
  fold_left after_frame fs s.

(** The pixel stream of a fill: [n] times the pair (high byte, low byte). *)
Definition pixel_stream (color : Z) (n : nat) : list Z :=
  concat (repeat [Z.land (Z.shiftr color 8) 0xFF; Z.land color 0xFF] n).

Definition window_frames (x0 y0 x1e y1e : Z) : list frame :=
  [Cmd 0x2A; Param 0x00; Param x0; Param 0x00; Param x1e;
   Cmd 0x2B; Param 0x00; Param y0; Param 0x00; Param y1e;
   Cmd 0x2C].

(** Emptiness of the rectangle after clamping, in the words of the specification:
    out of the panel, or no column or row left once [x1] and [y1] are
    clamped to the panel. *)
Definition empty_after_clamp (x0 y0 x1 y1 : Z) : Prop :=
  x0 >= 240 \/ y0 >= 240 \/ x0 >= Z.min x1 240 \/ y0 >= Z.min y1 240.

(** ** The initialization script as data

    The register program of [GC9A01_InitRegisters] read as a table of
    (command byte, parameter bytes), followed by the two timed commands
    that end it.  It is compared with the code in [framed_InitRegisters]. *)
Definition init_table : list (Z * list Z) :=
  [
   (0xEF, []);
   (0xEB, [0x14]);
   (0xFE, []);
   (0xEF, []);
   (0xEB, [0x14]);
   (0x84, [0x40]);
   (0x85, [0xFF]);
   (0x86, [0xFF]);
   (0x87, [0xFF]);
   (0x88, [0x0A]);
   (0x89, [0x21]);
   (0x8A, [0x00]);
   (0x8B, [0x80]);
   (0x8C, [0x01]);
   (0x8D, [0x01]);
   (0x8E, [0xFF]);
   (0x8F, [0xFF]);
   (0xB6, [0x00; 0x20]);
   (0x36, [0x08]);
   (0x3A, [0x05]);
   (0x90, [0x08; 0x08; 0x08; 0x08]);
   (0xBD, [0x06]);
   (0xBC, [0x00]);
   (0xFF, [0x60; 0x01; 0x04]);
   (0xC3, [0x13]);
   (0xC4, [0x13]);
   (0xC9, [0x22]);
   (0xBE, [0x11]);
   (0xE1, [0x10; 0x0E]);
   (0xDF, [0x21; 0x0c; 0x02]);
   (0xF0, [0x45; 0x09; 0x08; 0x08; 0x26; 0x2A]);
   (0xF1, [0x43; 0x70; 0x72; 0x36; 0x37; 0x6F]);
   (0xF2, [0x45; 0x09; 0x08; 0x08; 0x26; 0x2A]);
   (0xF3, [0x43; 0x70; 0x72; 0x36; 0x37; 0x6F]);
   (0xED, [0x1B; 0x0B]);
   (0xAE, [0x77]);
   (0xCD, [0x63]);
   (0x70, [0x07; 0x07; 0x04; 0x0E; 0x0F; 0x09; 0x07; 0x08; 0x03]);
   (0xE8, [0x34]);
   (0x62, [0x18; 0x0D; 0x71; 0xED; 0x70; 0x70; 0x18; 0x0F; 0x71; 0xEF; 0x70; 0x70]);
   (0x63, [0x18; 0x11; 0x71; 0xF1; 0x70; 0x70; 0x18; 0x13; 0x71; 0xF3; 0x70; 0x70]);
   (0x64, [0x28; 0x29; 0xF1; 0x01; 0xF1; 0x00; 0x07]);
   (0x66, [0x3C; 0x00; 0xCD; 0x67; 0x45; 0x45; 0x10; 0x00; 0x00; 0x00]);
   (0x67, [0x00; 0x3C; 0x00; 0x00; 0x00; 0x01; 0x54; 0x10; 0x32; 0x98]);
   (0x74, [0x10; 0x85; 0x80; 0x00; 0x00; 0x4E; 0x00]);
   (0x98, [0x3e; 0x07]);
   (0x35, []);
   (0x21, [])
  ].

Definition table_frames (t : list (Z * list Z)) : list frame :=
  flat_map (fun row => Cmd (fst row) :: map Param (snd row)) t.

Definition SLEEP_OUT : Z := 0x11.
Definition DISPLAY_ON : Z := 0x29.

Definition init_script : list frame :=
  table_frames init_table
    ++ [Cmd SLEEP_OUT; Pause 120; Cmd DISPLAY_ON; Pause 20].

(** The frames of a fill, following the clamping of [GC9A01_FillRect]. *)
Definition FillRect_frames (x0 y0 x1 y1 color : Z) : list frame :=
  if (x0 >=? LCD_WIDTH) || (y0 >=? LCD_HEIGHT) then [] else
  let x1 := if x1 >? LCD_WIDTH then LCD_WIDTH else x1 in
  let y1 := if y1 >? LCD_HEIGHT then LCD_HEIGHT else y1 in
  if (x0 >=? x1) || (y0 >=? y1) then [] else
  window_frames (Z.land x0 0xFF) (Z.land y0 0xFF)
                (Z.land (x1 - 1) 0xFF) (Z.land (y1 - 1) 0xFF)
    ++ [Burst (pixel_stream color
                 (Z.to_nat (wrap16 (x1 - x0)) * Z.to_nat (wrap16 (y1 - y0))))].

Definition op_frames (o : op) : list frame :=
  match o with
  | Initialize => ResetPulse :: init_script
  | SetWindow x0 y0 x1 y1 =>
      window_frames (Z.land x0 0xFF) (Z.land y0 0xFF)
                    (Z.land (x1 - 1) 0xFF) (Z.land (y1 - 1) 0xFF)
  | FillRect x0 y0 x1 y1 color => FillRect_frames x0 y0 x1 y1 color
  | FillScreen color => FillRect_frames 0 0 LCD_WIDTH LCD_HEIGHT color
  end.

(** Arguments a C caller can pass: every coordinate and color is a
    16-bit unsigned value. *)
Definition uint16 (z : Z) : Prop := 0 <= z < 65536.

Definition op_uint16 (o : op) : Prop :=
  match o with
  | Initialize => True
  | SetWindow x0 y0 x1 y1 => uint16 x0 /\ uint16 y0 /\ uint16 x1 /\ uint16 y1
  | FillRect x0 y0 x1 y1 color =>
      uint16 x0 /\ uint16 y0 /\ uint16 x1 /\ uint16 y1 /\ uint16 color
  | FillScreen color => uint16 color
  end.

(** ** The framing rule as the specification words it

    Cmd bytes are sent in command mode under an asserted chip-select;
    data bytes are sent in data mode under a chip-select that is still
    asserted; and chip-select is not deasserted between a byte and the
    data byte that follows it. *)
Definition framing_as_stated (evs : list event) : Prop :=
  (forall pre b post,
      evs = pre ++ SPI_WriteByte b :: post ->
      level LCD_DC_PIN pre = Some false ->
      level LCD_CS_PIN pre = Some false)
  /\ (forall pre b post,
      evs = pre ++ SPI_WriteByte b :: post ->
      level LCD_DC_PIN pre = Some true ->
      level LCD_CS_PIN pre = Some false)
  /\ (forall pre b1 mid b2 post,
      evs = pre ++ SPI_WriteByte b1 :: mid ++ SPI_WriteByte b2 :: post ->
      bytes_of mid = [] ->
      level LCD_DC_PIN (pre ++ SPI_WriteByte b1 :: mid) = Some true ->
      ~ In (funDigitalWrite LCD_CS_PIN true) mid).

(** ** The framing rule as the engine keeps it

    What holds of every byte and of every chip-select release in the
    traces of the engine.  A byte sent with the data/command line low is
    a command byte; a data byte is a pixel byte when the command before
    it is memory-write, a parameter byte otherwise.  Nothing is said
    about the chip-select level under which a parameter byte is sent. *)
Definition ends_with (evs suffix : list event) : Prop :=
  exists evs', evs = evs' ++ suffix.

Definition begins_with (evs prefix : list event) : Prop :=
  exists evs', evs = prefix ++ evs'.

Definition framing_as_built (evs : list event) : Prop :=
  (* every byte is sent after the mode line was driven *)
  (forall pre b post,
      evs = pre ++ SPI_WriteByte b :: post ->
      level LCD_DC_PIN pre <> None)
  (* command byte: chip-select assertion, command mode, then the byte *)
  /\ (forall pre b post,
      evs = pre ++ SPI_WriteByte b :: post ->
      level LCD_DC_PIN pre = Some FUN_LOW ->
      ends_with pre [funDigitalWrite LCD_CS_PIN FUN_LOW; Delay_Us 1;
                     funDigitalWrite LCD_DC_PIN FUN_LOW; Delay_Us 1]
      /\ level LCD_CS_PIN pre = Some FUN_LOW)
  (* pixel byte: chip-select still low; next comes a pixel byte or the
     release that ends the burst *)
  /\ (forall pre b post,
      evs = pre ++ SPI_WriteByte b :: post ->
      level LCD_DC_PIN pre = Some FUN_HIGH ->
      last_command pre = Some MEMORY_WRITE ->
      level LCD_CS_PIN pre = Some FUN_LOW
      /\ (begins_with post [funDigitalWrite LCD_CS_PIN FUN_HIGH]
          \/ exists b', begins_with post [SPI_WriteByte b']))
  (* parameter byte: its own data-mode selection before, its own
     chip-select release after *)
  /\ (forall pre b post,
      evs = pre ++ SPI_WriteByte b :: post ->
      level LCD_DC_PIN pre = Some FUN_HIGH ->
      last_command pre <> Some MEMORY_WRITE ->
      ends_with pre [funDigitalWrite LCD_DC_PIN FUN_HIGH; Delay_Us 1]
      /\ begins_with post [Delay_Us 1; funDigitalWrite LCD_CS_PIN FUN_HIGH;
                           Delay_Us 10])
  (* chip-select is released only right after a data byte *)
  /\ (forall pre post,
      evs = pre ++ funDigitalWrite LCD_CS_PIN FUN_HIGH :: post ->
      exists pre' d,
        level LCD_DC_PIN pre' = Some FUN_HIGH
        /\ (pre = pre' ++ [SPI_WriteByte d]
            \/ pre = pre' ++ [SPI_WriteByte d; Delay_Us 1])).

(** * The rest of the two files *)

(** ** lcd_hal.c: prescaler and byte bursts *)

(** [apb_clock / spi_speed] is an unsigned 32-bit division; dividing
    by zero is undefined in C, and the properties below assume a
    positive [spi_speed]. *)
Definition LCD_HAL_SPI_CalcPrescaler (apb_clock spi_speed : Z) : Z :=
  let ratio := apb_clock / spi_speed in
  if ratio >=? 256 then 7 else
  if ratio >=? 128 then 6 else
  if ratio >=? 64 then 5 else
  if ratio >=? 32 then 4 else
  if ratio >=? 16 then 3 else
  if ratio >=? 8 then 2 else
  if ratio >=? 4 then 1 else
  0.


(** [pData] is the buffer behind the pointer; reading past its end is
    undefined in C, and the properties below assume [Length] within it. *)
Definition LCD_HAL_SPI_WriteBytes (pData : list Z) (Length : Z) : action :=
  for_count (Z.to_nat Length) 0 (fun i =>
    LCD_HAL_SPI_WriteByte (nth (Z.to_nat i) pData 0)).

(** ** gc9a01_driver.c: the unused transfer helpers and the stripes *)





(** ** More ways to read a trace *)

(** Does the event drive pin [p]? *)
Definition drives (p : pin) (e : event) : bool :=
  match e with
  | funDigitalWrite q _ => pin_eqb p q
  | _ => false
  end.

Definition never_drives (p : pin) (evs : list event) : bool :=
  forallb (fun e => negb (drives p e)) evs.



(** The receiver's reading of a pixel stream: two bytes per pixel, high
    byte first. *)
Fixpoint decode_pixels (bs : list Z) : list Z :=
  match bs with
  | hi :: lo :: bs' => (hi * 256 + lo) :: decode_pixels bs'
  | _ => []
  end.




(** [polls_at_most f n]: [f] reads the status register at most [n]
    times.  [WRITE_POLLS] is the budget of one byte. *)
Definition polls_at_most (f : action) (n : nat) : Prop :=
  forall st, (reads (f st) <= reads st + n)%nat.

Definition WRITE_POLLS : nat := 2 * (SPI_TIMEOUT + 1).

(** The one situation in which [LCD_HAL_SPI_WriteByte] drops its byte:
    the transmit buffer is reported empty on the last read of the budget
    and on none before. *)
Definition ready_on_last_read (st : state) : Prop :=
  (forall i, (i < SPI_TIMEOUT)%nat -> TXE (statr st (reads st + i)) = false)
  /\ TXE (statr st (reads st + SPI_TIMEOUT)) = true.

(** * Proofs *)

(** ** The transport adapter, seen from the trace *)

Section TraceOfPrimitives.

Lemma busy_wait_trace cond n st :
  trace (snd (busy_wait cond n st)) = trace st.
Proof.
  revert st; induction n as [|n IH]; intros st; simpl;
    destruct (cond (statr st (reads st))); simpl; auto.
  rewrite IH; reflexivity.
Qed.

Lemma busy_wait_datar cond n st :
  datar (snd (busy_wait cond n st)) = datar st.
Proof.
  revert st; induction n as [|n IH]; intros st; simpl;
    destruct (cond (statr st (reads st))); simpl; auto.
  rewrite IH; reflexivity.
Qed.

Lemma busy_wait_statr cond n st :
  statr (snd (busy_wait cond n st)) = statr st.
Proof.
  revert st; induction n as [|n IH]; intros st; simpl;
    destruct (cond (statr st (reads st))); simpl; auto.
  rewrite IH; reflexivity.
Qed.

(** Each wait reads the status register at least once and at most
    [timeout + 1] times. *)
Lemma busy_wait_reads cond n st :
  (reads st < reads (snd (busy_wait cond n st)) <= reads st + n + 1)%nat.
Proof.
  revert st; induction n as [|n IH]; intros st; simpl;
    destruct (cond (statr st (reads st))); simpl; try lia.
  specialize (IH (mkState (statr st) (S (reads st)) (datar st) (trace st))).
  simpl in IH; lia.
Qed.

Lemma emits_emit e : emits (emit e) [e].
Proof. intros st; reflexivity. Qed.

Lemma emits_skip : emits skip [].
Proof. intros st; unfold skip; now rewrite app_nil_r. Qed.

Lemma emits_seq f g a b : emits f a -> emits g b -> emits (f ;; g) (a ++ b).
Proof.
  intros Hf Hg st; unfold seq; rewrite Hg, Hf, app_assoc; reflexivity.
Qed.

Lemma emits_eq f a b : emits f a -> a = b -> emits f b.
Proof. intros H <-; exact H. Qed.

Lemma emits_DigitalWrite p v :
  emits (LCD_HAL_DigitalWrite p v) [funDigitalWrite p (negb (v =? 0))].
Proof.
  intros st; unfold LCD_HAL_DigitalWrite, LCD_GPIO_INVERTED, FUN_LOW, FUN_HIGH.
  destruct (v =? 0); reflexivity.
Qed.

Lemma emits_Delay_ms n : emits (LCD_HAL_Delay_ms n) [Delay_Ms n].
Proof. apply emits_emit. Qed.

Lemma emits_Delay_us n : emits (LCD_HAL_Delay_us n) [Delay_Us n].
Proof. apply emits_emit. Qed.

Lemma emits_SPI_WriteByte b : emits (LCD_HAL_SPI_WriteByte b) [SPI_WriteByte b].
Proof.
  intros st; unfold LCD_HAL_SPI_WriteByte.
  destruct (busy_wait _ SPI_TIMEOUT (emit _ st)) as [t st1] eqn:E1.
  assert (H1 : trace st1 = trace st ++ [SPI_WriteByte b]).
  { change st1 with (snd (t, st1)); rewrite <- E1, busy_wait_trace.
    reflexivity. }
  destruct (t =? 0); [exact H1|].
  destruct (busy_wait BSY SPI_TIMEOUT (write_DATAR b st1)) as [t2 st2] eqn:E2.
  change st2 with (snd (t2, st2)); rewrite <- E2, busy_wait_trace.
  exact H1.
Qed.

End TraceOfPrimitives.

(** ** Frames of the communication layer *)

Section FramesOfTheEngine.

Lemma framed_nil : framed skip [].
Proof. apply emits_skip. Qed.

Lemma framed_seq f g a b : framed f a -> framed g b -> framed (f ;; g) (a ++ b).
Proof.
  unfold framed, frames_events; intros Hf Hg.
  rewrite flat_map_app; now apply emits_seq.
Qed.

Lemma framed_eq f a b : framed f a -> a = b -> framed f b.
Proof. intros H <-; exact H. Qed.

Ltac emits_chain :=
  repeat lazymatch goal with
    | |- emits (_ ;; _) _ => eapply emits_seq
    | |- emits (LCD_HAL_DigitalWrite _ _) _ => apply emits_DigitalWrite
    | |- emits (LCD_HAL_Delay_us _) _ => apply emits_Delay_us
    | |- emits (LCD_HAL_Delay_ms _) _ => apply emits_Delay_ms
    | |- emits (LCD_HAL_SPI_WriteByte _) _ => apply emits_SPI_WriteByte
    end.

Lemma framed_SendCommand c : framed (GC9A01_SendCommand c) [Cmd c].
Proof.
  unfold framed, GC9A01_SendCommand.
  eapply emits_eq; [emits_chain | reflexivity].
Qed.

Lemma framed_SendData d : framed (GC9A01_SendData d) [Param d].
Proof.
  unfold framed, GC9A01_SendData.
  eapply emits_eq; [emits_chain | reflexivity].
Qed.

Lemma framed_Reset : framed GC9A01_Reset [ResetPulse].
Proof.
  unfold framed, GC9A01_Reset.
  eapply emits_eq; [emits_chain | reflexivity].
Qed.

Lemma framed_Delay_ms n : framed (LCD_HAL_Delay_ms n) [Pause n].
Proof. apply emits_Delay_ms. Qed.

End FramesOfTheEngine.

Ltac framed_chain :=
  repeat lazymatch goal with
    | |- framed (_ ;; _) _ => eapply framed_seq
    | |- framed (GC9A01_SendCommand _) _ => apply framed_SendCommand
    | |- framed (GC9A01_SendData _) _ => apply framed_SendData
    | |- framed (LCD_HAL_Delay_ms _) _ => apply framed_Delay_ms
    | |- framed GC9A01_Reset _ => apply framed_Reset
    end.

Lemma framed_InitRegisters : framed GC9A01_InitRegisters init_script.
Proof.
  unfold GC9A01_InitRegisters.
  eapply framed_eq; [framed_chain | reflexivity].
Qed.

Lemma framed_Init : framed GC9A01_Init (ResetPulse :: init_script).
Proof.
  unfold GC9A01_Init.
  eapply framed_eq;
    [eapply framed_seq; [apply framed_Reset | apply framed_InitRegisters]
    | reflexivity].
Qed.

Lemma framed_SetWindow x0 y0 x1 y1 :
  framed (GC9A01_SetWindow x0 y0 x1 y1)
    (window_frames (Z.land x0 0xFF) (Z.land y0 0xFF)
       (Z.land (x1 - 1) 0xFF) (Z.land (y1 - 1) 0xFF)).
Proof.
  unfold GC9A01_SetWindow.
  eapply framed_eq; [framed_chain | reflexivity].
Qed.

(** ** The fill loop *)

Section FillLoop.

Lemma emits_for_count k i body evs :
  (forall j, emits (body j) evs) ->
  emits (for_count k i body) (concat (repeat evs k)).
Proof.
  intros Hb; revert i; induction k as [|k IH]; intros i; simpl.
  - apply emits_skip.
  - apply emits_seq; [apply Hb | apply IH].
Qed.

Lemma emits_for_lt n body evs :
  (forall j, emits (body j) evs) ->
  emits (for_lt n body) (concat (repeat evs (Z.to_nat n))).
Proof. intros Hb; now apply emits_for_count. Qed.

Lemma concat_repeat_mul {A} (l : list A) (h w : nat) :
  concat (repeat (concat (repeat l h)) w) = concat (repeat l (w * h)).
Proof.
  induction w as [|w IH]; simpl; [reflexivity|].
  rewrite IH, repeat_app, concat_app; reflexivity.
Qed.

Lemma map_pixel_stream color n :
  map SPI_WriteByte (pixel_stream color n)
  = concat (repeat [SPI_WriteByte (Z.land (Z.shiftr color 8) 0xFF);
                    SPI_WriteByte (Z.land color 0xFF)] n).
Proof.
  unfold pixel_stream; induction n as [|n IH]; simpl; [reflexivity|].
  now rewrite <- IH.
Qed.

Lemma length_pixel_stream color n :
  length (pixel_stream color n) = (2 * n)%nat.
Proof.
  unfold pixel_stream; induction n as [|n IH]; simpl; [reflexivity|].
  rewrite IH; lia.
Qed.

Lemma emits_wait_not_busy : emits wait_not_busy [].
Proof.
  intros st; unfold wait_not_busy.
  now rewrite busy_wait_trace, app_nil_r.
Qed.

Lemma FillRect_unfold x0 y0 x1 y1 color st :
  GC9A01_FillRect x0 y0 x1 y1 color st =
  if (x0 >=? LCD_WIDTH) || (y0 >=? LCD_HEIGHT) then st else
  let x1 := if x1 >? LCD_WIDTH then LCD_WIDTH else x1 in
  let y1 := if y1 >? LCD_HEIGHT then LCD_HEIGHT else y1 in
  if (x0 >=? x1) || (y0 >=? y1) then st else
  fill_body x0 y0 x1 y1 color st.
Proof.
  unfold GC9A01_FillRect, fill_body, wait_not_busy, seq.
  destruct ((x0 >=? LCD_WIDTH) || (y0 >=? LCD_HEIGHT)); [reflexivity|].
  cbv zeta.
  destruct ((x0 >=? _) || (y0 >=? _)); [reflexivity|].
  destruct (busy_wait BSY SPI_TIMEOUT _); reflexivity.
Qed.

Lemma emits_fill_body x0 y0 x1 y1 color :
  emits (fill_body x0 y0 x1 y1 color)
    (frames_events
       (window_frames (Z.land x0 0xFF) (Z.land y0 0xFF)
                      (Z.land (x1 - 1) 0xFF) (Z.land (y1 - 1) 0xFF))
     ++ funDigitalWrite LCD_DC_PIN true
        :: map SPI_WriteByte
             (pixel_stream color
                (Z.to_nat (wrap16 (x1 - x0)) * Z.to_nat (wrap16 (y1 - y0))))
        ++ [funDigitalWrite LCD_CS_PIN true]).
Proof.
  unfold fill_body.
  apply emits_seq; [apply framed_SetWindow|].
  change (funDigitalWrite LCD_DC_PIN true :: ?l)
    with ([funDigitalWrite LCD_DC_PIN true] ++ l).
  apply emits_seq; [apply (emits_DigitalWrite LCD_DC_PIN 1)|].
  apply emits_seq.
  - rewrite map_pixel_stream, <- concat_repeat_mul.
    apply emits_for_lt; intros _.
    apply emits_for_lt; intros _.
    apply (emits_seq _ _ [_] [_]); apply emits_SPI_WriteByte.
  - apply (emits_seq _ _ [] [_]);
      [apply emits_wait_not_busy | apply (emits_DigitalWrite LCD_CS_PIN 1)].
Qed.

Lemma framed_FillRect x0 y0 x1 y1 color :
  framed (GC9A01_FillRect x0 y0 x1 y1 color)
         (FillRect_frames x0 y0 x1 y1 color).
Proof.
  intros st; rewrite FillRect_unfold; unfold FillRect_frames.
  destruct ((x0 >=? LCD_WIDTH) || (y0 >=? LCD_HEIGHT));
    [now rewrite app_nil_r|].
  cbv zeta.
  destruct ((x0 >=? _) || (y0 >=? _)); [now rewrite app_nil_r|].
  rewrite emits_fill_body; unfold frames_events.
  rewrite flat_map_app.
  change (flat_map frame_events [Burst ?bs])
    with (frame_events (Burst bs) ++ []).
  rewrite app_nil_r; reflexivity.
Qed.

Lemma framed_run_op o : framed (run_op o) (op_frames o).
Proof.
  destruct o; simpl.
  - apply framed_Init.
  - apply framed_SetWindow.
  - apply framed_FillRect.
  - apply framed_FillRect.
Qed.

Lemma framed_run_ops os : framed (run_ops os) (flat_map op_frames os).
Proof.
  induction os as [|o os IH]; simpl.
  - apply framed_nil.
  - apply framed_seq; [apply framed_run_op | exact IH].
Qed.

End FillLoop.

(** ** Filling rectangles *)

(** The functions run: a 2x1 red fill on a ready peripheral, and the
    clamped one-pixel fill in the bottom-right corner. *)
Example FillRect_2x1_bytes :
  bytes_of (trace (GC9A01_FillRect 0 0 2 1 0xF800 spi_ready))
  = [0x2A; 0x00; 0x00; 0x00; 0x01; 0x2B; 0x00; 0x00; 0x00; 0x00; 0x2C;
     0xF8; 0x00; 0xF8; 0x00].
Proof. vm_compute; reflexivity. Qed.

Example FillRect_corner_bytes :
  bytes_of (trace (GC9A01_FillRect 239 239 300 300 0x1234 spi_ready))
  = [0x2A; 0x00; 0xEF; 0x00; 0xEF; 0x2B; 0x00; 0xEF; 0x00; 0xEF; 0x2C;
     0x12; 0x34].
Proof. vm_compute; reflexivity. Qed.

(** C1 (pixel count).  For every rectangle with [0 <= x0 < x1 <= 240] and
    [0 <= y0 < y1 <= 240] and every color, what [GC9A01_FillRect] emits
    after the addressing commands of [GC9A01_SetWindow] is one data-mode
    selection, a run of data bytes [px], and the closing chip-select
    release; [px] has exactly [2*(x1-x0)*(y1-y0)] bytes and is
    [(x1-x0)*(y1-y0)] consecutive pairs whose first byte is
    [(color >> 8) & 0xFF] and whose second byte is [color & 0xFF]. *)
Theorem FillRect_pixel_count x0 y0 x1 y1 color st :
  0 <= x0 < x1 -> x1 <= 240 -> 0 <= y0 < y1 -> y1 <= 240 ->
  exists px,
    trace (GC9A01_FillRect x0 y0 x1 y1 color st)
    = trace (GC9A01_SetWindow x0 y0 x1 y1 st)
        ++ funDigitalWrite LCD_DC_PIN true
           :: map SPI_WriteByte px ++ [funDigitalWrite LCD_CS_PIN true]
    /\ Z.of_nat (length px) = 2 * (x1 - x0) * (y1 - y0)
    /\ px = concat (repeat [Z.land (Z.shiftr color 8) 0xFF; Z.land color 0xFF]
                      (Z.to_nat ((x1 - x0) * (y1 - y0)))).
Proof.
  intros Hx Hx1 Hy Hy1.
  exists (pixel_stream color (Z.to_nat ((x1 - x0) * (y1 - y0)))).
  split; [|split].
  - rewrite FillRect_unfold; unfold LCD_WIDTH, LCD_HEIGHT.
    replace (x0 >=? 240) with false by lia.
    replace (y0 >=? 240) with false by lia.
    replace (x1 >? 240) with false by lia.
    replace (y1 >? 240) with false by lia.
    cbv zeta; simpl orb.
    replace (x0 >=? x1) with false by lia.
    replace (y0 >=? y1) with false by lia.
    simpl orb; cbv iota.
    rewrite emits_fill_body, framed_SetWindow, <- app_assoc.
    unfold wrap16.
    rewrite !Z.mod_small by lia.
    rewrite <- Z2Nat.inj_mul by lia.
    reflexivity.
  - rewrite length_pixel_stream, Nat2Z.inj_mul, Z2Nat.id by nia.
    simpl Z.of_nat; ring.
  - reflexivity.
Qed.

Lemma FillRect_pixel_count_witness :
  exists px,
    trace (GC9A01_FillRect 10 10 20 20 0x07E0 spi_ready)
    = trace (GC9A01_SetWindow 10 10 20 20 spi_ready)
        ++ funDigitalWrite LCD_DC_PIN true
           :: map SPI_WriteByte px ++ [funDigitalWrite LCD_CS_PIN true]
    /\ Z.of_nat (length px) = 2 * (20 - 10) * (20 - 10)
    /\ px = concat (repeat [Z.land (Z.shiftr 0x07E0 8) 0xFF; Z.land 0x07E0 0xFF]
                      (Z.to_nat ((20 - 10) * (20 - 10)))).
Proof.
  apply (FillRect_pixel_count 10 10 20 20 0x07E0 spi_ready); lia.
Defined.

(** C5 (empty no-op).  [GC9A01_FillRect(50,50,50,80,c)] and
    [GC9A01_FillRect(10,300,20,310,c)] leave the whole world unchanged: no
    byte, no pin write, no delay, no register access; and so does every
    fill whose rectangle is empty after clamping ([x0 >= 240], [y0 >= 240],
    [x0 >= x1] or [y0 >= y1] with [x1], [y1] clamped to 240). *)
Theorem FillRect_empty_noop :
  (forall c st, GC9A01_FillRect 50 50 50 80 c st = st)
  /\ (forall c st, GC9A01_FillRect 10 300 20 310 c st = st)
  /\ (forall x0 y0 x1 y1 c st,
        empty_after_clamp x0 y0 x1 y1 ->
        GC9A01_FillRect x0 y0 x1 y1 c st = st).
Proof.
  assert (G : forall x0 y0 x1 y1 c st,
             empty_after_clamp x0 y0 x1 y1 ->
             GC9A01_FillRect x0 y0 x1 y1 c st = st).
  { intros x0 y0 x1 y1 c st H.
    rewrite FillRect_unfold; unfold LCD_WIDTH, LCD_HEIGHT.
    destruct (x0 >=? 240) eqn:E1; [reflexivity|].
    destruct (y0 >=? 240) eqn:E2; [reflexivity|].
    cbv zeta; simpl orb; cbv iota.
    destruct (x0 >=? (if x1 >? 240 then 240 else x1)) eqn:E3; [reflexivity|].
    destruct (y0 >=? (if y1 >? 240 then 240 else y1)) eqn:E4; [reflexivity|].
    exfalso; unfold empty_after_clamp in H.
    destruct (x1 >? 240) eqn:Ex; destruct (y1 >? 240) eqn:Ey; lia. }
  split; [|split].
  - intros c st; apply G; unfold empty_after_clamp; lia.
  - intros c st; apply G; unfold empty_after_clamp; lia.
  - exact G.
Qed.

Lemma FillRect_empty_noop_witness :
  empty_after_clamp 240 0 300 10
  /\ GC9A01_FillRect 240 0 300 10 0xFFFF spi_ready = spi_ready.
Proof.
  assert (H : empty_after_clamp 240 0 300 10)
    by (unfold empty_after_clamp; lia).
  split; [exact H|].
  exact (proj2 (proj2 FillRect_empty_noop) 240 0 300 10 0xFFFF spi_ready H).
Defined.

(** C6 (clamp idempotence).  For every [x0 < 240], [y0 < 240] and every
    color, [GC9A01_FillRect(x0,y0,300,300,c)] and
    [GC9A01_FillRect(x0,y0,240,240,c)] produce the same trace, and indeed
    the same world: same bytes, same pin writes, same register accesses. *)
Theorem FillRect_clamp_300_240 x0 y0 c st :
  0 <= x0 < 240 -> 0 <= y0 < 240 ->
  trace (GC9A01_FillRect x0 y0 300 300 c st)
  = trace (GC9A01_FillRect x0 y0 240 240 c st)
  /\ GC9A01_FillRect x0 y0 300 300 c st = GC9A01_FillRect x0 y0 240 240 c st.
Proof.
  intros _ _.
  assert (E : GC9A01_FillRect x0 y0 300 300 c st
              = GC9A01_FillRect x0 y0 240 240 c st).
  { rewrite !FillRect_unfold; reflexivity. }
  rewrite E; split; reflexivity.
Qed.

Lemma FillRect_clamp_300_240_witness :
  trace (GC9A01_FillRect 200 230 300 300 0xF800 spi_ready)
  = trace (GC9A01_FillRect 200 230 240 240 0xF800 spi_ready)
  /\ GC9A01_FillRect 200 230 300 300 0xF800 spi_ready
     = GC9A01_FillRect 200 230 240 240 0xF800 spi_ready.
Proof.
  apply (FillRect_clamp_300_240 200 230 0xF800 spi_ready); lia.
Defined.

(** ** Window addressing *)

Lemma land_0xFF z : Z.land z 0xFF = z mod 256.
Proof. exact (Z.land_ones z 8 ltac:(lia)). Qed.

Lemma land_0xFF_small z : 0 <= z < 256 -> Z.land z 0xFF = z.
Proof. intros H; rewrite land_0xFF; now apply Z.mod_small. Qed.

Lemma land_0xFF_wrap16 z : Z.land (wrap16 z) 0xFF = Z.land z 0xFF.
Proof.
  rewrite !land_0xFF; unfold wrap16.
  apply Z.mod_mod_divide; exists 256; reflexivity.
Qed.

(** C4 (window encoding).  [GC9A01_SetWindow(0,0,240,240)] emits the
    column-address-set command 0x2A with data bytes [0x00,0x00,0x00,0xEF],
    the row-address-set command 0x2B with data bytes [0x00,0x00,0x00,0xEF],
    and the memory-write command 0x2C; and for in-range coordinates
    ([0 <= x0 < x1 <= 240], [0 <= y0 < y1 <= 240]) the start bytes are [x0],
    [y0] and the end bytes are [x1-1], [y1-1]. *)
Theorem SetWindow_encoding :
  (forall st,
      trace (GC9A01_SetWindow 0 0 240 240 st)
      = trace st
        ++ frames_events
             [Cmd 0x2A; Param 0x00; Param 0x00; Param 0x00; Param 0xEF;
              Cmd 0x2B; Param 0x00; Param 0x00; Param 0x00; Param 0xEF;
              Cmd 0x2C])
  /\ (forall x0 y0 x1 y1 st,
      0 <= x0 < x1 -> x1 <= 240 -> 0 <= y0 < y1 -> y1 <= 240 ->
      trace (GC9A01_SetWindow x0 y0 x1 y1 st)
      = trace st
        ++ frames_events
             [Cmd 0x2A; Param 0x00; Param x0; Param 0x00; Param (x1 - 1);
              Cmd 0x2B; Param 0x00; Param y0; Param 0x00; Param (y1 - 1);
              Cmd 0x2C]).
Proof.
  split.
  - intros st; rewrite framed_SetWindow; reflexivity.
  - intros x0 y0 x1 y1 st Hx Hx1 Hy Hy1.
    rewrite framed_SetWindow; unfold window_frames.
    rewrite !land_0xFF_small by lia; reflexivity.
Qed.

Lemma SetWindow_encoding_witness :
  trace (GC9A01_SetWindow 10 10 20 20 spi_ready)
  = trace spi_ready
    ++ frames_events
         [Cmd 0x2A; Param 0x00; Param 10; Param 0x00; Param (20 - 1);
          Cmd 0x2B; Param 0x00; Param 10; Param 0x00; Param (20 - 1);
          Cmd 0x2C].
Proof.
  apply (proj2 SetWindow_encoding 10 10 20 20 spi_ready); lia.
Defined.

(** C9 (no bounds check in the window command).  For all arguments, in
    particular all 16-bit ones, [GC9A01_SetWindow] emits the same eleven
    frames, never fewer: the start bytes are [x0 & 0xFF] and [y0 & 0xFF],
    the end bytes are [(x1 - 1) & 0xFF] and [(y1 - 1) & 0xFF] with the
    subtraction wrapping at 16 bits; with [x1 = 0] or [y1 = 0] the end
    byte sent is 0xFF. *)
Theorem SetWindow_unchecked :
  (forall x0 y0 x1 y1 st,
      trace (GC9A01_SetWindow x0 y0 x1 y1 st)
      = trace st
        ++ frames_events
             [Cmd 0x2A; Param 0x00; Param (Z.land x0 0xFF);
              Param 0x00; Param (Z.land (wrap16 (x1 - 1)) 0xFF);
              Cmd 0x2B; Param 0x00; Param (Z.land y0 0xFF);
              Param 0x00; Param (Z.land (wrap16 (y1 - 1)) 0xFF);
              Cmd 0x2C])
  /\ (forall x0 y0 y1 st,
      trace (GC9A01_SetWindow x0 y0 0 y1 st)
      = trace st
        ++ frames_events
             [Cmd 0x2A; Param 0x00; Param (Z.land x0 0xFF);
              Param 0x00; Param 0xFF;
              Cmd 0x2B; Param 0x00; Param (Z.land y0 0xFF);
              Param 0x00; Param (Z.land (wrap16 (y1 - 1)) 0xFF);
              Cmd 0x2C])
  /\ (forall x0 y0 x1 st,
      trace (GC9A01_SetWindow x0 y0 x1 0 st)
      = trace st
        ++ frames_events
             [Cmd 0x2A; Param 0x00; Param (Z.land x0 0xFF);
              Param 0x00; Param (Z.land (wrap16 (x1 - 1)) 0xFF);
              Cmd 0x2B; Param 0x00; Param (Z.land y0 0xFF);
              Param 0x00; Param 0xFF;
              Cmd 0x2C]).
Proof.
  assert (G : forall x0 y0 x1 y1 st,
      trace (GC9A01_SetWindow x0 y0 x1 y1 st)
      = trace st
        ++ frames_events
             (window_frames (Z.land x0 0xFF) (Z.land y0 0xFF)
                (Z.land (wrap16 (x1 - 1)) 0xFF)
                (Z.land (wrap16 (y1 - 1)) 0xFF))).
  { intros x0 y0 x1 y1 st; rewrite framed_SetWindow.
    rewrite !land_0xFF_wrap16; reflexivity. }
  split; [|split].
  - exact G.
  - intros x0 y0 y1 st; rewrite G; reflexivity.
  - intros x0 y0 x1 st; rewrite G; reflexivity.
Qed.

(** ** Reset and initialization *)

Section LevelsAndAppend.

Lemma level_from_app i p a b :
  level_from i p (a ++ b) = level_from (level_from i p a) p b.
Proof.
  revert i; induction a as [|e a IH]; intros i; simpl; [reflexivity|].
  destruct e; apply IH.
Qed.

Lemma level_app p a b :
  level p (a ++ b) = level_from (level p a) p b.
Proof. apply level_from_app. Qed.

End LevelsAndAppend.

(** C7 (initialization).  [GC9A01_Init] is [GC9A01_Reset] followed by
    [GC9A01_InitRegisters]; the register program replays the table
    [init_table] and its trace then ends with the sleep-out command 0x11,
    a delay of 120 ms, the display-on command 0x29 and a delay of 20 ms:
    display-on is the last byte sent. *)
Theorem Init_is_reset_then_script :
  (forall st, GC9A01_Init st = GC9A01_InitRegisters (GC9A01_Reset st))
  /\ (forall st,
      trace (GC9A01_InitRegisters st)
      = trace st
        ++ frames_events (table_frames init_table)
        ++ [funDigitalWrite LCD_CS_PIN false; Delay_Us 1;
            funDigitalWrite LCD_DC_PIN false; Delay_Us 1;
            SPI_WriteByte 0x11; Delay_Us 1;
            Delay_Ms 120;
            funDigitalWrite LCD_CS_PIN false; Delay_Us 1;
            funDigitalWrite LCD_DC_PIN false; Delay_Us 1;
            SPI_WriteByte 0x29; Delay_Us 1;
            Delay_Ms 20])
  /\ (forall st,
      trace (GC9A01_Init st)
      = trace (GC9A01_Reset st)
        ++ frames_events (table_frames init_table)
        ++ frames_events [Cmd 0x11; Pause 120; Cmd 0x29; Pause 20]).
Proof.
  split; [|split].
  - reflexivity.
  - intros st; rewrite framed_InitRegisters.
    unfold init_script, frames_events; rewrite flat_map_app; reflexivity.
  - intros st; unfold GC9A01_Init, seq.
    rewrite framed_InitRegisters.
    unfold init_script, frames_events; rewrite flat_map_app; reflexivity.
Qed.

(** C10 (chip-select after initialization).  When [GC9A01_Init] returns
    the level last driven on the chip-select line is low (asserted),
    whatever happened before; [GC9A01_SendCommand] drives chip-select low
    and never high; and the last events of [GC9A01_Init] are exactly those
    of [GC9A01_SendCommand(0x29)] followed by the 20 ms delay, so the next
    operation starts with chip-select low. *)
Theorem Init_leaves_chip_select_low :
  (forall st, level LCD_CS_PIN (trace (GC9A01_Init st)) = Some FUN_LOW)
  /\ (forall cmd st,
      exists evs,
        trace (GC9A01_SendCommand cmd st) = trace st ++ evs
        /\ ~ In (funDigitalWrite LCD_CS_PIN FUN_HIGH) evs
        /\ level LCD_CS_PIN (trace (GC9A01_SendCommand cmd st)) = Some FUN_LOW)
  /\ (forall st,
      exists before,
        trace (GC9A01_Init st)
        = before
          ++ [funDigitalWrite LCD_CS_PIN FUN_LOW; Delay_Us 1;
              funDigitalWrite LCD_DC_PIN FUN_LOW; Delay_Us 1;
              SPI_WriteByte 0x29; Delay_Us 1;
              Delay_Ms 20]).
Proof.
  split; [|split].
  - intros st; rewrite framed_Init, level_app; reflexivity.
  - intros cmd st; exists (frame_events (Cmd cmd)).
    assert (E : trace (GC9A01_SendCommand cmd st)
                = trace st ++ frame_events (Cmd cmd)).
    { rewrite framed_SendCommand; reflexivity. }
    split; [exact E|split].
    + simpl; intros H.
      repeat (destruct H as [H|H]; [discriminate H|]); exact H.
    + rewrite E, level_app; reflexivity.
  - intros st.
    exists (trace st
            ++ frames_events
                 (ResetPulse :: table_frames init_table
                    ++ [Cmd 0x11; Pause 120])).
    rewrite framed_Init, <- app_assoc; reflexivity.
Qed.

(** C3 (reset timing).  [GC9A01_Reset] selects the chip, waits 100 ms,
    drives the reset line low, waits 100 ms, drives it high and waits
    100 ms.  In [GC9A01_Init] the line is therefore low for 100 ms, and
    the first command byte is handed to the transport 100 ms and two
    1 us settle delays after the release: 100.002 ms, short of 120 ms. *)
Theorem Reset_release_hold :
  (forall st,
      trace (GC9A01_Reset st)
      = trace st
        ++ [funDigitalWrite LCD_CS_PIN FUN_LOW; Delay_Ms 100;
            funDigitalWrite LCD_RST_PIN FUN_LOW; Delay_Ms 100;
            funDigitalWrite LCD_RST_PIN FUN_HIGH; Delay_Ms 100])
  /\ exists evs,
      (forall st, trace (GC9A01_Init st) = trace st ++ evs)
      /\ reset_low_us evs = Some (100 * 1000)
      /\ release_to_first_byte_us evs = Some (100 * 1000 + 1 + 1)
      /\ 100 * 1000 + 1 + 1 < 120 * 1000.
Proof.
  split.
  - intros st; rewrite framed_Reset; reflexivity.
  - exists (frames_events (ResetPulse :: init_script)).
    split; [exact framed_Init|].
    split; [reflexivity|].
    split; [reflexivity|lia].
Qed.

(** ** The bounded busy-waits of the transport adapter *)

Section BusyWait.

Variable cond : Z -> bool.

(** The condition holds on the next [k] reads and fails on the one
    after: the loop makes [k + 1] reads and leaves [timeout - k]. *)
Lemma busy_wait_clears (k n : nat) st :
  (k <= n)%nat ->
  (forall i, (i < k)%nat -> cond (statr st (reads st + i)) = true) ->
  cond (statr st (reads st + k)) = false ->
  busy_wait cond n st
  = (Z.of_nat (n - k),
     mkState (statr st) (reads st + k + 1) (datar st) (trace st)).
Proof.
  revert n st; induction k as [|k IH]; intros n st Hk Hbusy Hclear.
  - rewrite Nat.add_0_r in Hclear.
    destruct n; simpl; rewrite Hclear; repeat f_equal; lia.
  - destruct n as [|n]; [lia|].
    assert (H0 := Hbusy O ltac:(lia)); rewrite Nat.add_0_r in H0.
    simpl busy_wait; rewrite H0.
    rewrite IH; simpl.
    + repeat f_equal; lia.
    + lia.
    + intros i Hi; specialize (Hbusy (S i) ltac:(lia)).
      now rewrite Nat.add_succ_r in Hbusy.
    + now rewrite Nat.add_succ_r in Hclear.
Qed.

(** The condition holds on the next [n + 1] reads: the counter runs
    out, the last post-decrement wraps it, and the loop exits with
    [timeout = 0xFFFFFFFF]. *)
Lemma busy_wait_expires (n : nat) st :
  (forall i, (i <= n)%nat -> cond (statr st (reads st + i)) = true) ->
  busy_wait cond n st
  = (UINT32_MAX,
     mkState (statr st) (reads st + n + 1) (datar st) (trace st)).
Proof.
  revert st; induction n as [|n IH]; intros st Hbusy;
    assert (H0 := Hbusy O ltac:(lia)); rewrite Nat.add_0_r in H0;
    simpl busy_wait; rewrite H0.
  - repeat f_equal; lia.
  - rewrite IH; simpl.
    + repeat f_equal; lia.
    + intros i Hi; specialize (Hbusy (S i) ltac:(lia)).
      now rewrite Nat.add_succ_r in Hbusy.
Qed.

End BusyWait.

(** Both waits of [LCD_HAL_SPI_WriteByte] are bounded: the call returns
    after at most [2 * (100000 + 1)] reads of the status register,
    whatever the register shows. *)
Lemma SPI_WriteByte_reads_bound Value st :
  (reads (LCD_HAL_SPI_WriteByte Value st)
   <= reads st + 2 * (SPI_TIMEOUT + 1))%nat.
Proof.
  unfold LCD_HAL_SPI_WriteByte.
  pose proof (busy_wait_reads (fun s => negb (TXE s)) SPI_TIMEOUT
                (emit (SPI_WriteByte Value) st)) as H1.
  destruct (busy_wait _ SPI_TIMEOUT (emit _ st)) as [t st1].
  simpl in H1.
  destruct (t =? 0); [lia|].
  pose proof (busy_wait_reads BSY SPI_TIMEOUT (write_DATAR Value st1)) as H2.
  destruct (busy_wait BSY SPI_TIMEOUT _) as [t2 st2].
  simpl in H2; lia.
Qed.

(** A transmit buffer that never empties for the whole budget: the
    counter wraps instead of stopping at 0, the [timeout == 0] test
    fails, and the byte is stored into the data register all the same. *)
Lemma SPI_WriteByte_after_timeout Value st :
  (forall i, (i <= SPI_TIMEOUT)%nat -> TXE (statr st (reads st + i)) = false) ->
  datar (LCD_HAL_SPI_WriteByte Value st) = datar st ++ [Value]
  /\ (reads st + SPI_TIMEOUT + 1 < reads (LCD_HAL_SPI_WriteByte Value st))%nat.
Proof.
  intros Hstuck; unfold LCD_HAL_SPI_WriteByte.
  rewrite busy_wait_expires
    by (intros i Hi; simpl; now rewrite Hstuck).
  change (UINT32_MAX =? 0) with false; cbv iota.
  match goal with
  | |- context [busy_wait BSY SPI_TIMEOUT ?s] =>
      pose proof (busy_wait_datar BSY SPI_TIMEOUT s) as Hd;
      pose proof (busy_wait_reads BSY SPI_TIMEOUT s) as Hr;
      destruct (busy_wait BSY SPI_TIMEOUT s) as [t2 st2]
  end.
  simpl in Hd, Hr; split; [exact Hd | lia].
Qed.

(** The transmit buffer empties exactly on the last read the budget
    allows: the counter is 0 when the loop exits, and the byte is dropped
    although the peripheral is ready. *)
Lemma SPI_WriteByte_ready_on_last_read Value st :
  (forall i, (i < SPI_TIMEOUT)%nat -> TXE (statr st (reads st + i)) = false) ->
  TXE (statr st (reads st + SPI_TIMEOUT)) = true ->
  datar (LCD_HAL_SPI_WriteByte Value st) = datar st.
Proof.
  intros Hbusy Hready; unfold LCD_HAL_SPI_WriteByte.
  rewrite (busy_wait_clears _ SPI_TIMEOUT SPI_TIMEOUT).
  - rewrite Nat.sub_diag; reflexivity.
  - lia.
  - intros i Hi; simpl; now rewrite Hbusy.
  - simpl; now rewrite Hready.
Qed.

(** C8 (bounded waits, timeout).  Every call of [LCD_HAL_SPI_WriteByte]
    returns within [2 * 100001] reads of the status register.  On the
    peripheral [spi_stuck], whose transmit buffer never empties, the wait
    for TXE gives up after 100001 reads, yet the call is not abandoned:
    the byte is stored into the data register and the wait for BSY runs
    (one more read, 100002 in all). *)
Theorem SPI_WriteByte_timeout_still_writes :
  (forall Value st,
      Z.of_nat (reads (LCD_HAL_SPI_WriteByte Value st))
      <= Z.of_nat (reads st) + 2 * (100000 + 1))
  /\ datar (LCD_HAL_SPI_WriteByte 0xA5 spi_stuck) = [0xA5]
  /\ Z.of_nat (reads (LCD_HAL_SPI_WriteByte 0xA5 spi_stuck)) = 100000 + 1 + 1.
Proof.
  split; [|split].
  - intros Value st.
    pose proof (SPI_WriteByte_reads_bound Value st) as H.
    unfold SPI_TIMEOUT in H; lia.
  - apply (SPI_WriteByte_after_timeout 0xA5 spi_stuck).
    intros i _; reflexivity.
  - unfold LCD_HAL_SPI_WriteByte.
    rewrite busy_wait_expires by (intros i _; reflexivity).
    change (UINT32_MAX =? 0) with false; cbv iota.
    rewrite (busy_wait_clears BSY 0 SPI_TIMEOUT);
      [ | apply Nat.le_0_l | intros i Hi; inversion Hi | reflexivity ].
    cbv beta iota delta [reads statr datar trace emit write_DATAR spi_stuck].
    unfold SPI_TIMEOUT; lia.
Qed.

(** ** Command framing *)

Lemma nil_split {A} (u v : list A) x : [] = u ++ x :: v -> False.
Proof. destruct u; discriminate. Qed.

Lemma cons_split {A} (e x : A) l u v :
  e :: l = u ++ x :: v ->
  (u = [] /\ e = x /\ l = v) \/ (exists u', u = e :: u' /\ l = u' ++ x :: v).
Proof.
  destruct u as [|e' u]; simpl; intros H; injection H as -> ->.
  - left; auto.
  - right; eauto.
Qed.

Section SplittingTraces.

Context {A B : Type}.

(** An element of a flattened list sits inside one of the pieces. *)
Lemma flat_map_split (f : A -> list B) l pre x post :
  flat_map f l = pre ++ x :: post ->
  exists l1 a l2 u v,
    l = l1 ++ a :: l2 /\ f a = u ++ x :: v
    /\ pre = flat_map f l1 ++ u /\ post = v ++ flat_map f l2.
Proof.
  revert pre; induction l as [|a l IH]; simpl; intros pre H.
  - now apply nil_split in H.
  - apply app_eq_app in H as [m [[Ha Hm] | [Hp Hm]]].
    + destruct m as [|y m].
      * simpl in Hm; symmetry in Hm.
        apply (IH []) in Hm as (l1 & a' & l2 & u & v & -> & Hf & Hu & ->).
        exists (a :: l1), a', l2, u, v; simpl.
        rewrite app_nil_r in Ha; subst pre.
        rewrite <- app_assoc, <- Hu, app_nil_r; auto.
      * injection Hm as -> ->.
        exists [], a, l, pre, m; auto.
    + apply IH in Hm as (l1 & a' & l2 & u & v & -> & Hf & -> & ->).
      exists (a :: l1), a', l2, u, v; simpl.
      rewrite <- app_assoc, <- Hp; auto.
Qed.

(** An element of [map g bs ++ [z]] is the image of an element of
    [bs], or it is [z]. *)
Lemma map_snoc_split (g : A -> B) bs z u x v :
  map g bs ++ [z] = u ++ x :: v ->
  (exists bs1 y bs2,
      bs = bs1 ++ y :: bs2 /\ u = map g bs1 /\ x = g y
      /\ v = map g bs2 ++ [z])
  \/ (u = map g bs /\ x = z /\ v = []).
Proof.
  revert u; induction bs as [|y bs IH]; simpl; intros u H.
  - apply cons_split in H as [(-> & -> & <-) | (u' & _ & H)].
    + right; auto.
    + now apply nil_split in H.
  - apply cons_split in H as [(-> & <- & <-) | (u' & -> & H)].
    + left; exists [], y, bs; auto.
    + apply IH in H as [(bs1 & y' & bs2 & -> & -> & -> & ->) | (-> & -> & ->)].
      * left; exists (y :: bs1), y', bs2; auto.
      * right; auto.
Qed.

End SplittingTraces.

Section LinksBetweenFrames.

Lemma level_from_bytes i p bs :
  level_from i p (map SPI_WriteByte bs) = i.
Proof. induction bs; simpl; auto. Qed.

Lemma last_command_from_app dc c a r :
  last_command_from dc c (a ++ r)
  = last_command_from (level_from dc LCD_DC_PIN a)
      (last_command_from dc c a) r.
Proof.
  revert dc c; induction a as [|e a IH]; intros dc c; simpl; [reflexivity|].
  destruct e as [[] l| | |b]; simpl; apply IH.
Qed.

Lemma last_command_from_data c bs :
  last_command_from (Some true) c (map SPI_WriteByte bs) = c.
Proof. induction bs; simpl; auto. Qed.

Lemma last_command_app a r :
  last_command (a ++ r)
  = last_command_from (level LCD_DC_PIN a) (last_command a) r.
Proof. apply last_command_from_app. Qed.

(** One frame moves the link as [after_frame] says. *)
Lemma frame_level_cs i c f :
  level_from i LCD_CS_PIN (frame_events f) = snd (after_frame (c, i) f).
Proof.
  destruct f; try reflexivity.
  simpl; now rewrite level_from_app, level_from_bytes.
Qed.

Lemma frame_last_command dc c i f :
  last_command_from dc c (frame_events f) = fst (after_frame (c, i) f).
Proof.
  destruct f; try reflexivity.
  simpl; now rewrite last_command_from_app, last_command_from_data.
Qed.

Lemma frames_link dc c i fs :
  last_command_from dc c (frames_events fs) = fst (after_frames (c, i) fs)
  /\ level_from i LCD_CS_PIN (frames_events fs) = snd (after_frames (c, i) fs).
Proof.
  revert dc c i; induction fs as [|f fs IH]; intros dc c i; simpl;
    [auto|].
  unfold frames_events in *; simpl flat_map.
  rewrite last_command_from_app, level_from_app.
  rewrite (frame_last_command dc c i f), (frame_level_cs i c f).
  destruct (after_frame (c, i) f) as [c' i'] eqn:E; simpl fst; simpl snd.
  apply IH.
Qed.

Lemma sequenced_app s a b :
  sequenced s (a ++ b) = sequenced s a && sequenced (after_frames s a) b.
Proof.
  revert s; induction a as [|f a IH]; intros s; simpl; [reflexivity|].
  now rewrite IH, andb_assoc.
Qed.

Lemma sequenced_at s fs1 f fs2 :
  sequenced s (fs1 ++ f :: fs2) = true ->
  frame_ok (after_frames s fs1) f = true.
Proof.
  rewrite sequenced_app; simpl; intros H.
  apply andb_prop in H as [_ H]; now apply andb_prop in H as [H _].
Qed.

End LinksBetweenFrames.

Ltac walk_split H :=
  repeat (apply cons_split in H as [(? & ? & ?) | (? & ? & H)];
          [subst; try discriminate | subst]);
  try (now apply nil_split in H).

Section WhereBytesSit.

(** A byte of a frame is the byte of a command, the byte of a
    parameter, or one byte of a burst. *)
Lemma byte_in_frame f u b v :
  frame_events f = u ++ SPI_WriteByte b :: v ->
  (f = Cmd b
   /\ u = [funDigitalWrite LCD_CS_PIN false; Delay_Us 1;
           funDigitalWrite LCD_DC_PIN false; Delay_Us 1]
   /\ v = [Delay_Us 1])
  \/ (f = Param b
      /\ u = [funDigitalWrite LCD_DC_PIN true; Delay_Us 1]
      /\ v = [Delay_Us 1; funDigitalWrite LCD_CS_PIN true; Delay_Us 10])
  \/ (exists bs1 bs2,
         f = Burst (bs1 ++ b :: bs2)
         /\ u = funDigitalWrite LCD_DC_PIN true :: map SPI_WriteByte bs1
         /\ v = map SPI_WriteByte bs2 ++ [funDigitalWrite LCD_CS_PIN true]).
Proof.
  destruct f as [c|d|bs|ms|]; simpl; intros H.
  - walk_split H.
    match goal with E : SPI_WriteByte _ = SPI_WriteByte _ |- _ =>
      injection E as -> end.
    left; auto.
  - walk_split H.
    match goal with E : SPI_WriteByte _ = SPI_WriteByte _ |- _ =>
      injection E as -> end.
    right; left; auto.
  - apply cons_split in H as [(_ & E & _) | (u' & -> & H)];
      [discriminate E|].
    apply map_snoc_split in H
      as [(bs1 & y & bs2 & -> & -> & E & ->) | (_ & E & _)];
      [|discriminate E].
    injection E as ->.
    right; right; exists bs1, bs2; auto.
  - walk_split H.
  - walk_split H.
Qed.

(** A chip-select release in a frame closes a parameter or a burst. *)
Lemma release_in_frame f u v :
  frame_events f = u ++ funDigitalWrite LCD_CS_PIN true :: v ->
  (exists d,
      f = Param d
      /\ u = [funDigitalWrite LCD_DC_PIN true; Delay_Us 1;
              SPI_WriteByte d; Delay_Us 1])
  \/ (exists bs,
         f = Burst bs
         /\ u = funDigitalWrite LCD_DC_PIN true :: map SPI_WriteByte bs).
Proof.
  destruct f as [c|d|bs|ms|]; simpl; intros H.
  - walk_split H.
  - walk_split H; left; eauto.
  - apply cons_split in H as [(_ & E & _) | (u' & -> & H)];
      [discriminate E|].
    apply map_snoc_split in H
      as [(bs1 & y & bs2 & _ & _ & E & _) | (-> & _ & _)];
      [discriminate E|].
    right; eauto.
  - walk_split H.
  - walk_split H.
Qed.

End WhereBytesSit.

Section FramingOfSequencedFrames.

Let start : link := (None, None).

Lemma link_at fs :
  last_command (frames_events fs) = fst (after_frames start fs)
  /\ level LCD_CS_PIN (frames_events fs) = snd (after_frames start fs).
Proof. apply (frames_link None None None). Qed.

Variable fs : list frame.
Hypothesis Hseq : sequenced start fs = true.

Lemma built_byte_cases pre b post :
  frames_events fs = pre ++ SPI_WriteByte b :: post ->
  (* command *)
  (level LCD_DC_PIN pre = Some false
   /\ level LCD_CS_PIN pre = Some false
   /\ ends_with pre [funDigitalWrite LCD_CS_PIN false; Delay_Us 1;
                     funDigitalWrite LCD_DC_PIN false; Delay_Us 1])
  (* parameter *)
  \/ (level LCD_DC_PIN pre = Some true
      /\ (exists c, last_command pre = Some c /\ c <> MEMORY_WRITE)
      /\ ends_with pre [funDigitalWrite LCD_DC_PIN true; Delay_Us 1]
      /\ begins_with post [Delay_Us 1; funDigitalWrite LCD_CS_PIN true;
                           Delay_Us 10])
  (* pixel *)
  \/ (level LCD_DC_PIN pre = Some true
      /\ last_command pre = Some MEMORY_WRITE
      /\ level LCD_CS_PIN pre = Some false
      /\ (begins_with post [funDigitalWrite LCD_CS_PIN true]
          \/ exists b', begins_with post [SPI_WriteByte b'])).
Proof.
  intros H; unfold frames_events in H.
  apply flat_map_split in H as (fs1 & f & fs2 & u & v & E & Hf & -> & ->).
  fold (frames_events fs1); fold (frames_events fs2).
  pose proof Hseq as Hok; rewrite E in Hok; apply sequenced_at in Hok.
  destruct (link_at fs1) as [Hcmd Hcs].
  apply byte_in_frame in Hf
    as [(-> & -> & ->) | [(-> & -> & ->) | (bs1 & bs2 & -> & -> & ->)]].
  - left; rewrite !level_app; repeat split; try reflexivity.
    now exists (frames_events fs1).
  - right; left; rewrite level_app, last_command_app.
    split; [reflexivity|].
    split; [|split].
    + simpl; rewrite Hcmd.
      simpl in Hok; destruct (fst (after_frames start fs1)) as [c|];
        [|discriminate].
      exists c; split; [reflexivity|].
      intros Hc; subst c; discriminate.
    + now exists (frames_events fs1).
    + now exists (frames_events fs2).
  - right; right; rewrite !level_app, last_command_app.
    simpl level_from; simpl last_command_from.
    rewrite !level_from_bytes, last_command_from_data, Hcmd, Hcs.
    simpl in Hok.
    destruct (fst (after_frames start fs1)) as [c|]; [|discriminate].
    destruct (snd (after_frames start fs1)) as [[|]|]; try discriminate.
    assert (Hc : c = MEMORY_WRITE).
    { destruct (bs1 ++ b :: bs2); [discriminate|].
      now apply Z.eqb_eq. }
    subst c; repeat split.
    destruct bs2 as [|b' bs2]; simpl.
    + left; now exists (frames_events fs2).
    + right; exists b'.
      exists (map SPI_WriteByte bs2
                ++ [funDigitalWrite LCD_CS_PIN true]
                ++ frames_events fs2).
      now rewrite <- app_assoc.
Qed.

End FramingOfSequencedFrames.

Section ReleasesOfSequencedFrames.

Variable fs : list frame.
Hypothesis Hseq : sequenced (None, None) fs = true.

Lemma built_release_cases pre post :
  frames_events fs = pre ++ funDigitalWrite LCD_CS_PIN true :: post ->
  exists pre' d,
    level LCD_DC_PIN pre' = Some true
    /\ (pre = pre' ++ [SPI_WriteByte d]
        \/ pre = pre' ++ [SPI_WriteByte d; Delay_Us 1]).
Proof.
  intros H; unfold frames_events in H.
  apply flat_map_split in H as (fs1 & f & fs2 & u & v & E & Hf & -> & ->).
  fold (frames_events fs1).
  pose proof Hseq as Hok; rewrite E in Hok; apply sequenced_at in Hok.
  apply release_in_frame in Hf as [(d & -> & ->) | (bs & -> & ->)].
  - exists (frames_events fs1 ++ [funDigitalWrite LCD_DC_PIN true; Delay_Us 1]), d.
    split; [now rewrite level_app|].
    right; now rewrite <- app_assoc.
  - assert (Hne : bs <> []).
    { intros ->; simpl in Hok.
      destruct (fst (after_frames _ fs1)); [|discriminate].
      destruct (snd (after_frames _ fs1)) as [[|]|]; discriminate. }
    destruct (exists_last Hne) as (bs' & d & ->).
    exists (frames_events fs1
            ++ funDigitalWrite LCD_DC_PIN true :: map SPI_WriteByte bs'), d.
    split.
    + rewrite level_app; simpl; now rewrite level_from_bytes.
    + left; rewrite map_app, <- app_assoc; reflexivity.
Qed.

End ReleasesOfSequencedFrames.

Lemma sequenced_built fs :
  sequenced (None, None) fs = true -> framing_as_built (frames_events fs).
Proof.
  intros Hseq; unfold framing_as_built, FUN_LOW, FUN_HIGH.
  split; [|split; [|split; [|split]]].
  - intros pre b post H.
    destruct (built_byte_cases fs Hseq pre b post H)
      as [(-> & _) | [(-> & _) | (-> & _)]]; discriminate.
  - intros pre b post H Hdc.
    destruct (built_byte_cases fs Hseq pre b post H)
      as [(_ & Hcs & He) | [(E & _) | (E & _)]];
      [auto | congruence | congruence].
  - intros pre b post H Hdc Hcmd.
    destruct (built_byte_cases fs Hseq pre b post H)
      as [(E & _) | [(_ & (c & Ec & Hc) & _) | (_ & _ & Hcs & Hnext)]];
      [congruence | congruence | auto].
  - intros pre b post H Hdc Hcmd.
    destruct (built_byte_cases fs Hseq pre b post H)
      as [(E & _) | [(_ & _ & He & Hb) | (_ & Ec & _)]];
      [congruence | auto | congruence].
  - intros pre post H; exact (built_release_cases fs Hseq pre post H).
Qed.

Section SequencedOperations.

Lemma pixel_stream_cons color n :
  pixel_stream color (S n)
  = Z.land (Z.shiftr color 8) 0xFF :: Z.land color 0xFF
      :: pixel_stream color n.
Proof. reflexivity. Qed.

Lemma sequenced_window s x0 y0 x1 y1 :
  sequenced s (window_frames x0 y0 x1 y1) = true
  /\ after_frames s (window_frames x0 y0 x1 y1)
     = (Some MEMORY_WRITE, Some false).
Proof. destruct s; split; reflexivity. Qed.

Lemma sequenced_init s : sequenced s (ResetPulse :: init_script) = true.
Proof. destruct s; reflexivity. Qed.

Lemma sequenced_fill s x0 y0 x1 y1 color :
  uint16 x0 -> uint16 y0 ->
  sequenced s (FillRect_frames x0 y0 x1 y1 color) = true.
Proof.
  unfold uint16, FillRect_frames, LCD_WIDTH, LCD_HEIGHT; intros Hx Hy.
  destruct (x0 >=? 240) eqn:E1; [reflexivity|].
  destruct (y0 >=? 240) eqn:E2; [reflexivity|].
  cbv zeta; simpl orb; cbv iota.
  set (x1c := if x1 >? 240 then 240 else x1).
  set (y1c := if y1 >? 240 then 240 else y1).
  destruct (x0 >=? x1c) eqn:E3; [reflexivity|].
  destruct (y0 >=? y1c) eqn:E4; [reflexivity|].
  simpl orb; cbv iota.
  assert (Hx1 : x1c <= 240) by (subst x1c; destruct (x1 >? 240) eqn:E; lia).
  assert (Hy1 : y1c <= 240) by (subst y1c; destruct (y1 >? 240) eqn:E; lia).
  rewrite sequenced_app.
  destruct (sequenced_window s (Z.land x0 0xFF) (Z.land y0 0xFF)
              (Z.land (x1c - 1) 0xFF) (Z.land (y1c - 1) 0xFF)) as [-> ->].
  unfold wrap16; rewrite !Z.mod_small by lia.
  destruct (Z.to_nat (x1c - x0)) as [|w] eqn:Ew; [lia|].
  destruct (Z.to_nat (y1c - y0)) as [|h] eqn:Eh; [lia|].
  simpl Nat.mul; rewrite pixel_stream_cons; reflexivity.
Qed.

Lemma sequenced_op s o :
  op_uint16 o -> sequenced s (op_frames o) = true.
Proof.
  destruct o as [|x0 y0 x1 y1|x0 y0 x1 y1 color|color];
    cbn [op_uint16 op_frames].
  - intros _; apply sequenced_init.
  - intros _; apply (proj1 (sequenced_window s _ _ _ _)).
  - intros (Hx & Hy & _); now apply sequenced_fill.
  - intros _; apply sequenced_fill; unfold uint16; lia.
Qed.

Lemma sequenced_ops os :
  Forall op_uint16 os ->
  forall s, sequenced s (flat_map op_frames os) = true.
Proof.
  induction 1 as [|o os Ho _ IH]; intros s; [reflexivity|].
  change (flat_map op_frames (o :: os))
    with (op_frames o ++ flat_map op_frames os).
  rewrite sequenced_app, (sequenced_op s o Ho); apply IH.
Qed.

End SequencedOperations.

(** C2 (command framing), as stated, fails on [GC9A01_SetWindow]: after
    the column-address command 0x2A, [GC9A01_SendData(0x00)] releases
    chip-select, and the next parameter byte is handed to the transport
    in data mode with chip-select high. *)
Lemma framing_as_stated_fails :
  ~ framing_as_stated (trace (run_ops [SetWindow 0 0 240 240] spi_ready)).
Proof.
  rewrite framed_run_ops; intros (_ & Hdata & _).
  specialize
    (Hdata
       (frame_events (Cmd 0x2A) ++ frame_events (Param 0x00)
          ++ [funDigitalWrite LCD_DC_PIN true; Delay_Us 1])
       0x00
       (skipn 15 (frames_events (window_frames 0 0 0xEF 0xEF)))
       eq_refl eq_refl).
  discriminate Hdata.
Qed.

(** C2 (command framing), amended.  In the trace of any sequence of
    driver operations (initialize, setWindow, fillRect, fillScreen) with
    16-bit arguments:
    - every byte is sent after the data/command line was driven;
    - every command byte directly follows chip-select assertion, a settle
      delay, command-mode selection and a settle delay, and is sent with
      chip-select low;
    - every pixel byte (a data byte after the memory-write command 0x2C)
      is sent with chip-select still low and is followed by the next
      pixel byte or by the chip-select release that ends the burst;
    - every parameter byte (any other data byte) directly follows its own
      data-mode selection and settle delay and is followed by a settle
      delay and its own chip-select release: chip-select is released
      after every parameter byte, not once per command;
    - chip-select is released only directly after a data byte. *)
Theorem framing_of_driver_operations os st :
  Forall op_uint16 os ->
  exists evs,
    trace (run_ops os st) = trace st ++ evs /\ framing_as_built evs.
Proof.
  intros Hos; exists (frames_events (flat_map op_frames os)); split.
  - apply framed_run_ops.
  - apply sequenced_built, sequenced_ops, Hos.
Qed.

Lemma framing_of_driver_operations_witness :
  exists evs,
    trace (run_ops [Initialize; FillScreen 0xF800; FillRect 10 10 20 20 0x07E0]
             spi_ready)
    = trace spi_ready ++ evs
    /\ framing_as_built evs.
Proof.
  apply (framing_of_driver_operations
           [Initialize; FillScreen 0xF800; FillRect 10 10 20 20 0x07E0]
           spi_ready).
  repeat constructor; unfold uint16; lia.
Defined.

(** The release between two parameter bytes: in the same trace,
    chip-select goes high between the first and the second parameter
    byte of the column-address command. *)
Lemma release_between_parameter_bytes :
  exists pre mid post,
    trace (run_ops [SetWindow 0 0 240 240] spi_ready)
    = pre ++ SPI_WriteByte 0x00 :: mid ++ SPI_WriteByte 0x00 :: post
    /\ bytes_of mid = []
    /\ level LCD_DC_PIN (pre ++ SPI_WriteByte 0x00 :: mid) = Some true
    /\ In (funDigitalWrite LCD_CS_PIN true) mid.
Proof.
  exists (frame_events (Cmd 0x2A)
          ++ [funDigitalWrite LCD_DC_PIN true; Delay_Us 1]),
    [Delay_Us 1; funDigitalWrite LCD_CS_PIN true; Delay_Us 10;
     funDigitalWrite LCD_DC_PIN true; Delay_Us 1],
    (skipn 15 (frames_events (window_frames 0 0 0xEF 0xEF))).
  rewrite framed_run_ops; repeat split; simpl; auto.
Qed.

(** ** The wire follows the trace *)

Section WireFollowsTrace.

Lemma bytes_of_app a b : bytes_of (a ++ b) = bytes_of a ++ bytes_of b.
Proof.
  induction a as [|e a IH]; simpl; [reflexivity|].
  destruct e; simpl; now rewrite IH.
Qed.

Lemma keeps_wire_skip : keeps_wire skip.
Proof. intros st; split; auto. Qed.

Lemma keeps_wire_seq f g : keeps_wire f -> keeps_wire g -> keeps_wire (f ;; g).
Proof.
  intros Hf Hg st; unfold seq.
  destruct (Hf st) as [Ef Wf]; destruct (Hg (f st)) as [Eg Wg].
  split; [congruence|].
  intros Hr Hw; apply Wg; [|now apply Wf].
  intros n; rewrite Ef; apply Hr.
Qed.

Lemma keeps_wire_DigitalWrite p v : keeps_wire (LCD_HAL_DigitalWrite p v).
Proof.
  intros st; split; [unfold LCD_HAL_DigitalWrite; now destruct LCD_GPIO_INVERTED|].
  unfold wire_in_step; intros _ Hw.
  rewrite emits_DigitalWrite, bytes_of_app, app_nil_r.
  unfold LCD_HAL_DigitalWrite; now destruct LCD_GPIO_INVERTED.
Qed.

Lemma keeps_wire_Delay_us n : keeps_wire (LCD_HAL_Delay_us n).
Proof.
  intros st; split; [reflexivity|].
  unfold wire_in_step; intros _ Hw.
  now rewrite emits_Delay_us, bytes_of_app, app_nil_r.
Qed.

Lemma keeps_wire_Delay_ms n : keeps_wire (LCD_HAL_Delay_ms n).
Proof.
  intros st; split; [reflexivity|].
  unfold wire_in_step; intros _ Hw.
  now rewrite emits_Delay_ms, bytes_of_app, app_nil_r.
Qed.

Lemma keeps_wire_wait_not_busy : keeps_wire wait_not_busy.
Proof.
  intros st; unfold wait_not_busy, wire_in_step; split.
  - apply busy_wait_statr.
  - intros _ Hw; now rewrite busy_wait_datar, busy_wait_trace.
Qed.

(** On a ready peripheral the byte handed over is the byte stored. *)
Lemma SPI_WriteByte_ready Value st :
  always_ready st ->
  datar (LCD_HAL_SPI_WriteByte Value st) = datar st ++ [Value].
Proof.
  intros Hr; unfold LCD_HAL_SPI_WriteByte.
  rewrite (busy_wait_clears _ 0 SPI_TIMEOUT);
    [ | apply Nat.le_0_l | intros i Hi; inversion Hi
      | simpl; now rewrite Hr ].
  destruct (Z.eqb_spec (Z.of_nat (SPI_TIMEOUT - 0)) 0) as [E|_];
    [unfold SPI_TIMEOUT in E; lia|].
  match goal with
  | |- context [busy_wait BSY SPI_TIMEOUT ?s] =>
      pose proof (busy_wait_datar BSY SPI_TIMEOUT s) as Hd;
      destruct (busy_wait BSY SPI_TIMEOUT s) as [t2 st2]
  end.
  exact Hd.
Qed.

Lemma SPI_WriteByte_statr Value st :
  statr (LCD_HAL_SPI_WriteByte Value st) = statr st.
Proof.
  unfold LCD_HAL_SPI_WriteByte.
  pose proof (busy_wait_statr (fun s => negb (TXE s)) SPI_TIMEOUT
                (emit (SPI_WriteByte Value) st)) as H1.
  destruct (busy_wait _ SPI_TIMEOUT (emit _ st)) as [t st1].
  simpl in H1; destruct (t =? 0); [exact H1|].
  pose proof (busy_wait_statr BSY SPI_TIMEOUT (write_DATAR Value st1)) as H2.
  destruct (busy_wait BSY SPI_TIMEOUT _) as [t2 st2].
  simpl in H2; congruence.
Qed.

Lemma keeps_wire_SPI_WriteByte b : keeps_wire (LCD_HAL_SPI_WriteByte b).
Proof.
  intros st; split; [apply SPI_WriteByte_statr|].
  unfold wire_in_step; intros Hr Hw.
  rewrite SPI_WriteByte_ready, emits_SPI_WriteByte, bytes_of_app by exact Hr.
  now rewrite Hw.
Qed.

Lemma keeps_wire_for_count k i body :
  (forall j, keeps_wire (body j)) -> keeps_wire (for_count k i body).
Proof.
  intros Hb; revert i; induction k as [|k IH]; intros i; simpl.
  - apply keeps_wire_skip.
  - apply keeps_wire_seq; [apply Hb | apply IH].
Qed.

End WireFollowsTrace.

Ltac keeps_wire_chain :=
  repeat lazymatch goal with
    | |- keeps_wire (_ ;; _) => apply keeps_wire_seq
    | |- keeps_wire (LCD_HAL_DigitalWrite _ _) => apply keeps_wire_DigitalWrite
    | |- keeps_wire (LCD_HAL_Delay_us _) => apply keeps_wire_Delay_us
    | |- keeps_wire (LCD_HAL_Delay_ms _) => apply keeps_wire_Delay_ms
    | |- keeps_wire (LCD_HAL_SPI_WriteByte _) => apply keeps_wire_SPI_WriteByte
    | |- keeps_wire wait_not_busy => apply keeps_wire_wait_not_busy
    | |- keeps_wire (for_lt _ _) => apply keeps_wire_for_count; intros ?
    end.

Lemma keeps_wire_SendCommand c : keeps_wire (GC9A01_SendCommand c).
Proof. unfold GC9A01_SendCommand; keeps_wire_chain. Qed.

Lemma keeps_wire_SendData d : keeps_wire (GC9A01_SendData d).
Proof. unfold GC9A01_SendData; keeps_wire_chain. Qed.

Ltac keeps_wire_frames :=
  repeat lazymatch goal with
    | |- keeps_wire (_ ;; _) => apply keeps_wire_seq
    | |- keeps_wire (GC9A01_SendCommand _) => apply keeps_wire_SendCommand
    | |- keeps_wire (GC9A01_SendData _) => apply keeps_wire_SendData
    | |- keeps_wire (LCD_HAL_Delay_ms _) => apply keeps_wire_Delay_ms
    end.

Lemma keeps_wire_Init : keeps_wire GC9A01_Init.
Proof.
  unfold GC9A01_Init; apply keeps_wire_seq.
  - unfold GC9A01_Reset; keeps_wire_chain.
  - unfold GC9A01_InitRegisters; keeps_wire_frames.
Qed.

Lemma keeps_wire_SetWindow x0 y0 x1 y1 :
  keeps_wire (GC9A01_SetWindow x0 y0 x1 y1).
Proof. unfold GC9A01_SetWindow; keeps_wire_frames. Qed.

Lemma keeps_wire_FillRect x0 y0 x1 y1 color :
  keeps_wire (GC9A01_FillRect x0 y0 x1 y1 color).
Proof.
  intros st; rewrite FillRect_unfold.
  destruct ((x0 >=? LCD_WIDTH) || (y0 >=? LCD_HEIGHT)); [now split|].
  cbv zeta.
  destruct ((x0 >=? _) || (y0 >=? _)); [now split|].
  revert st; change (keeps_wire
    (fill_body x0 y0 (if x1 >? LCD_WIDTH then LCD_WIDTH else x1)
       (if y1 >? LCD_HEIGHT then LCD_HEIGHT else y1) color)).
  unfold fill_body.
  apply keeps_wire_seq; [apply keeps_wire_SetWindow|].
  keeps_wire_chain.
Qed.

(** On a peripheral that is always ready, every byte the engine hands
    to the transport reaches the data register, in order: after any
    sequence of operations the register has received the bytes of the
    trace and nothing else. *)
Lemma wire_follows_trace os st :
  always_ready st ->
  wire_in_step st ->
  wire_in_step (run_ops os st).
Proof.
  assert (K : keeps_wire (run_ops os)).
  { induction os as [|o os IH]; simpl.
    - apply keeps_wire_skip.
    - apply keeps_wire_seq; [|exact IH].
      destruct o; simpl.
      + apply keeps_wire_Init.
      + apply keeps_wire_SetWindow.
      + apply keeps_wire_FillRect.
      + apply keeps_wire_FillRect. }
  intros Hr Hw; now apply (K st).
Qed.

Example wire_of_full_window :
  datar (run_ops [SetWindow 0 0 240 240] spi_ready)
  = [0x2A; 0x00; 0x00; 0x00; 0xEF; 0x2B; 0x00; 0x00; 0x00; 0xEF; 0x2C].
Proof.
  rewrite (wire_follows_trace [SetWindow 0 0 240 240] spi_ready).
  - rewrite framed_run_ops; reflexivity.
  - intros n; reflexivity.
  - reflexivity.
Qed.

(** * The rest of the two files: proofs *)

(** ** The SPI clock prescaler *)

Lemma CalcPrescaler_of_ratio apb spi :
  let r := apb / spi in
  let br := LCD_HAL_SPI_CalcPrescaler apb spi in
  (256 <= r /\ br = 7) \/ (128 <= r < 256 /\ br = 6)
  \/ (64 <= r < 128 /\ br = 5) \/ (32 <= r < 64 /\ br = 4)
  \/ (16 <= r < 32 /\ br = 3) \/ (8 <= r < 16 /\ br = 2)
  \/ (4 <= r < 8 /\ br = 1) \/ (r < 4 /\ br = 0).
Proof.
  cbv zeta; unfold LCD_HAL_SPI_CalcPrescaler.
  repeat match goal with
         | |- context [?a >=? ?b] => destruct (Z.geb_spec a b)
         end; lia.
Qed.



(** X2.  Asking for a faster clock never yields a larger prescaler, and
    a faster bus clock never yields a smaller one. *)
Theorem CalcPrescaler_monotone apb1 apb2 spi1 spi2 :
  0 <= apb1 <= apb2 -> 0 < spi2 <= spi1 ->
  LCD_HAL_SPI_CalcPrescaler apb1 spi1 <= LCD_HAL_SPI_CalcPrescaler apb2 spi2.
Proof.
  intros Hapb Hspi.
  assert (Hr : apb1 / spi1 <= apb2 / spi2).
  { transitivity (apb1 / spi2).
    - apply Z.div_le_compat_l; lia.
    - apply Z.div_le_mono; lia. }
  destruct (CalcPrescaler_of_ratio apb1 spi1)
    as [[H1 ->]|[[H1 ->]|[[H1 ->]|[[H1 ->]|[[H1 ->]|[[H1 ->]|[[H1 ->]|[H1 ->]]]]]]]];
  destruct (CalcPrescaler_of_ratio apb2 spi2)
    as [[H2 ->]|[[H2 ->]|[[H2 ->]|[[H2 ->]|[[H2 ->]|[[H2 ->]|[[H2 ->]|[H2 ->]]]]]]]];
  lia.
Qed.

Lemma CalcPrescaler_monotone_witness :
  LCD_HAL_SPI_CalcPrescaler 48000000 3000000
  <= LCD_HAL_SPI_CalcPrescaler 48000000 1500000.
Proof.
  apply (CalcPrescaler_monotone 48000000 48000000 3000000 1500000); lia.
Defined.

(** ** Byte bursts and the polling budget *)

Section BurstsAndPolls.

Lemma skipn_nth_cons {A} (d : A) (l : list A) (m : nat) :
  (m < length l)%nat -> skipn m l = nth m l d :: skipn (S m) l.
Proof.
  revert m; induction l as [|a l IH]; intros m Hm; simpl in Hm; [lia|].
  destruct m as [|m]; [reflexivity|].
  simpl skipn at 1; simpl nth; rewrite IH by lia; reflexivity.
Qed.

Lemma emits_write_from buf k m :
  (m + k <= length buf)%nat ->
  emits (for_count k (Z.of_nat m)
           (fun i => LCD_HAL_SPI_WriteByte (nth (Z.to_nat i) buf 0)))
        (map SPI_WriteByte (firstn k (skipn m buf))).
Proof.
  revert m; induction k as [|k IH]; intros m Hm; simpl for_count.
  - apply emits_skip.
  - rewrite (skipn_nth_cons 0 buf m) by lia.
    change (map SPI_WriteByte (firstn (S k) (?a :: ?l)))
      with ([SPI_WriteByte a] ++ map SPI_WriteByte (firstn k l)).
    apply emits_seq.
    + rewrite Nat2Z.id; apply emits_SPI_WriteByte.
    + replace (Z.of_nat m + 1) with (Z.of_nat (S m)) by lia.
      apply IH; lia.
Qed.

Lemma emits_WriteBytes buf len :
  0 <= len <= Z.of_nat (length buf) ->
  emits (LCD_HAL_SPI_WriteBytes buf len)
        (map SPI_WriteByte (firstn (Z.to_nat len) buf)).
Proof.
  intros Hlen; unfold LCD_HAL_SPI_WriteBytes.
  apply (emits_write_from buf (Z.to_nat len) 0); lia.
Qed.

Lemma polls_skip : polls_at_most skip 0.
Proof. intros st; unfold skip; lia. Qed.

Lemma polls_seq f g a b :
  polls_at_most f a -> polls_at_most g b -> polls_at_most (f ;; g) (a + b).
Proof.
  intros Hf Hg st; unfold seq.
  specialize (Hf st); specialize (Hg (f st)); lia.
Qed.

Lemma polls_le f a b :
  polls_at_most f a -> (a <= b)%nat -> polls_at_most f b.
Proof. intros Hf Hab st; specialize (Hf st); lia. Qed.

Lemma polls_DigitalWrite p v : polls_at_most (LCD_HAL_DigitalWrite p v) 0.
Proof.
  intros st; unfold LCD_HAL_DigitalWrite.
  destruct LCD_GPIO_INVERTED; simpl; lia.
Qed.

Lemma polls_Delay_us n : polls_at_most (LCD_HAL_Delay_us n) 0.
Proof. intros st; simpl; lia. Qed.

Lemma polls_Delay_ms n : polls_at_most (LCD_HAL_Delay_ms n) 0.
Proof. intros st; simpl; lia. Qed.

Lemma polls_SPI_WriteByte b : polls_at_most (LCD_HAL_SPI_WriteByte b) WRITE_POLLS.
Proof. intros st; apply SPI_WriteByte_reads_bound. Qed.

Lemma polls_wait_not_busy : polls_at_most wait_not_busy (SPI_TIMEOUT + 1).
Proof.
  intros st; unfold wait_not_busy.
  pose proof (busy_wait_reads BSY SPI_TIMEOUT st); lia.
Qed.

Lemma polls_for_count k i body n :
  (forall j, polls_at_most (body j) n) ->
  polls_at_most (for_count k i body) (k * n).
Proof.
  intros Hb; revert i; induction k as [|k IH]; intros i; simpl for_count.
  - apply polls_skip.
  - apply (polls_seq _ _ n (k * n)); [apply Hb | apply IH].
Qed.

End BurstsAndPolls.

Ltac polls_chain :=
  repeat lazymatch goal with
    | |- polls_at_most (_ ;; _) _ => eapply polls_seq
    | |- polls_at_most (LCD_HAL_DigitalWrite _ _) _ => apply polls_DigitalWrite
    | |- polls_at_most (LCD_HAL_Delay_us _) _ => apply polls_Delay_us
    | |- polls_at_most (LCD_HAL_Delay_ms _) _ => apply polls_Delay_ms
    | |- polls_at_most (LCD_HAL_SPI_WriteByte _) _ => apply polls_SPI_WriteByte
    | |- polls_at_most wait_not_busy _ => apply polls_wait_not_busy
    end.

Lemma polls_SendCommand c : polls_at_most (GC9A01_SendCommand c) WRITE_POLLS.
Proof.
  unfold GC9A01_SendCommand.
  eapply polls_le; [polls_chain | lia].
Qed.

Lemma polls_SendData d : polls_at_most (GC9A01_SendData d) WRITE_POLLS.
Proof.
  unfold GC9A01_SendData.
  eapply polls_le; [polls_chain | lia].
Qed.

Ltac polls_frames :=
  repeat lazymatch goal with
    | |- polls_at_most (_ ;; _) _ => eapply polls_seq
    | |- polls_at_most (GC9A01_SendCommand _) _ => apply polls_SendCommand
    | |- polls_at_most (GC9A01_SendData _) _ => apply polls_SendData
    end.

Lemma polls_SetWindow x0 y0 x1 y1 :
  polls_at_most (GC9A01_SetWindow x0 y0 x1 y1) (11 * WRITE_POLLS).
Proof.
  unfold GC9A01_SetWindow.
  eapply polls_le; [polls_frames | lia].
Qed.

Lemma polls_fill_body x0 y0 x1 y1 color :
  polls_at_most (fill_body x0 y0 x1 y1 color)
    (11 * WRITE_POLLS
     + Z.to_nat (wrap16 (x1 - x0))
       * (Z.to_nat (wrap16 (y1 - y0)) * (2 * WRITE_POLLS))
     + (SPI_TIMEOUT + 1)).
Proof.
  unfold fill_body.
  eapply polls_le.
  - eapply polls_seq; [apply polls_SetWindow|].
    eapply polls_seq; [apply polls_DigitalWrite|].
    eapply polls_seq.
    + apply polls_for_count; intros _.
      apply polls_for_count; intros _.
      eapply polls_le; [polls_chain | reflexivity].
    + polls_chain.
  - lia.
Qed.

(** X3.  [LCD_HAL_SPI_WriteBytes] hands over exactly the first [Length]
    bytes of the buffer, in order, with no pin write and no delay in
    between, and it returns within [200002 * Length] reads of the status
    register whatever the peripheral reports. *)
Theorem SPI_WriteBytes_in_order buf len st :
  0 <= len <= Z.of_nat (length buf) ->
  trace (LCD_HAL_SPI_WriteBytes buf len st)
  = trace st ++ map SPI_WriteByte (firstn (Z.to_nat len) buf)
  /\ Z.of_nat (reads (LCD_HAL_SPI_WriteBytes buf len st))
     <= Z.of_nat (reads st) + 200002 * len.
Proof.
  intros Hlen; split.
  - now apply emits_WriteBytes.
  - pose proof (polls_for_count (Z.to_nat len) 0
                  (fun i => LCD_HAL_SPI_WriteByte (nth (Z.to_nat i) buf 0))
                  WRITE_POLLS (fun j => polls_SPI_WriteByte _) st) as H.
    fold (LCD_HAL_SPI_WriteBytes buf len) in H.
    unfold WRITE_POLLS, SPI_TIMEOUT in H; nia.
Qed.

Lemma SPI_WriteBytes_in_order_witness :
  trace (LCD_HAL_SPI_WriteBytes [0xF8; 0x00; 0x07; 0xE0] 3 spi_stuck)
  = trace spi_stuck
    ++ map SPI_WriteByte (firstn (Z.to_nat 3) [0xF8; 0x00; 0x07; 0xE0])
  /\ Z.of_nat (reads (LCD_HAL_SPI_WriteBytes [0xF8; 0x00; 0x07; 0xE0] 3
                        spi_stuck))
     <= Z.of_nat (reads spi_stuck) + 200002 * 3.
Proof.
  apply (SPI_WriteBytes_in_order [0xF8; 0x00; 0x07; 0xE0] 3 spi_stuck).
  simpl; lia.
Defined.

(** X4.  A fill of a valid rectangle returns within
    [(11 + 2*(x1-x0)*(y1-y0)) * 200002 + 100001] reads of the status
    register, whatever the peripheral reports: one budget of two bounded
    waits per byte, and the final wait for BSY. *)
Theorem FillRect_polls x0 y0 x1 y1 color st :
  0 <= x0 < x1 -> x1 <= 240 -> 0 <= y0 < y1 -> y1 <= 240 ->
  Z.of_nat (reads (GC9A01_FillRect x0 y0 x1 y1 color st))
  <= Z.of_nat (reads st)
     + (11 + 2 * (x1 - x0) * (y1 - y0)) * 200002 + 100001.
Proof.
  intros Hx Hx1 Hy Hy1.
  rewrite FillRect_unfold; unfold LCD_WIDTH, LCD_HEIGHT.
  replace (x0 >=? 240) with false by lia.
  replace (y0 >=? 240) with false by lia.
  replace (x1 >? 240) with false by lia.
  replace (y1 >? 240) with false by lia.
  cbv zeta; simpl orb.
  replace (x0 >=? x1) with false by lia.
  replace (y0 >=? y1) with false by lia.
  simpl orb; cbv iota.
  pose proof (polls_fill_body x0 y0 x1 y1 color st) as H.
  unfold wrap16 in H; rewrite !Z.mod_small in H by lia.
  unfold WRITE_POLLS, SPI_TIMEOUT in H.
  set (w := Z.to_nat (x1 - x0)) in *; set (h := Z.to_nat (y1 - y0)) in *.
  assert (Hw : Z.of_nat w = x1 - x0) by (subst w; lia).
  assert (Hh : Z.of_nat h = y1 - y0) by (subst h; lia).
  rewrite <- Hw, <- Hh.
  apply Nat2Z.inj_le in H.
  rewrite !Nat2Z.inj_add, !Nat2Z.inj_mul, !Nat2Z.inj_add, Z2Nat.id in H by lia.
  change (Z.of_nat 11) with 11 in H; change (Z.of_nat 2) with 2 in H;
    change (Z.of_nat 1) with 1 in H.
  nia.
Qed.

Lemma FillRect_polls_witness :
  Z.of_nat (reads (GC9A01_FillRect 10 10 20 20 0x07E0 spi_stuck))
  <= Z.of_nat (reads spi_stuck)
     + (11 + 2 * (20 - 10) * (20 - 10)) * 200002 + 100001.
Proof.
  apply (FillRect_polls 10 10 20 20 0x07E0 spi_stuck); lia.
Defined.

(** ** What the peripheral can and cannot change *)

(** X5.  The engine never looks at what a byte write did: the pin
    writes, delays and bytes handed over by any sequence of operations
    are the same whatever the status register reports, before or during
    the calls. *)
Theorem trace_ignores_status os st1 st2 :
  trace st1 = trace st2 ->
  trace (run_ops os st1) = trace (run_ops os st2).
Proof. intros E; rewrite !framed_run_ops, E; reflexivity. Qed.

Lemma trace_ignores_status_witness :
  trace (run_ops [Initialize; FillRect 10 10 20 20 0x07E0] spi_ready)
  = trace (run_ops [Initialize; FillRect 10 10 20 20 0x07E0] spi_stuck).
Proof.
  apply (trace_ignores_status
           [Initialize; FillRect 10 10 20 20 0x07E0] spi_ready spi_stuck).
  reflexivity.
Defined.

Section OutcomeOfAWait.

Variable cond : Z -> bool.

(** Within its budget a wait either sees the condition fail for the
    first time on some read, or sees it hold on every read. *)
Lemma busy_wait_first_clear (n : nat) st :
  (exists k, (k <= n)%nat
             /\ (forall i, (i < k)%nat -> cond (statr st (reads st + i)) = true)
             /\ cond (statr st (reads st + k)) = false)
  \/ (forall i, (i <= n)%nat -> cond (statr st (reads st + i)) = true).
Proof.
  induction n as [|n [(k & Hk & Hb & Hc) | Hall]].
  - destruct (cond (statr st (reads st + 0))) eqn:E.
    + right; intros i Hi; replace i with O by lia; exact E.
    + left; exists O; repeat split; [lia | intros i Hi; lia | exact E].
  - left; exists k; repeat split; [lia | exact Hb | exact Hc].
  - destruct (cond (statr st (reads st + S n))) eqn:E.
    + right; intros i Hi.
      destruct (Nat.eq_dec i (S n)) as [->|Hne]; [exact E | apply Hall; lia].
    + left; exists (S n); repeat split;
        [lia | intros i Hi; apply Hall; lia | exact E].
Qed.

End OutcomeOfAWait.

(** X6.  [LCD_HAL_SPI_WriteByte] stores its byte into the data register
    in every case but one: it stores nothing exactly when the transmit
    buffer is reported empty on the last read of the budget (the
    100001st) and on none before.  In particular a peripheral that never
    becomes ready still gets the byte written. *)
Theorem SPI_WriteByte_stores_unless Value st :
  (ready_on_last_read st ->
   datar (LCD_HAL_SPI_WriteByte Value st) = datar st)
  /\ (~ ready_on_last_read st ->
      datar (LCD_HAL_SPI_WriteByte Value st) = datar st ++ [Value]).
Proof.
  split.
  - intros [Hbusy Hready]; now apply SPI_WriteByte_ready_on_last_read.
  - intros Hnot.
    destruct (busy_wait_first_clear (fun s => negb (TXE s)) SPI_TIMEOUT st)
      as [(k & Hk & Hb & Hc) | Hall].
    + assert (Hlt : (k < SPI_TIMEOUT)%nat).
      { destruct (Nat.eq_dec k SPI_TIMEOUT) as [->|Hne]; [|lia].
        exfalso; apply Hnot; split.
        - intros i Hi; specialize (Hb i Hi).
          now destruct (TXE (statr st (reads st + i))).
        - now destruct (TXE (statr st (reads st + SPI_TIMEOUT))). }
      unfold LCD_HAL_SPI_WriteByte.
      rewrite (busy_wait_clears _ k SPI_TIMEOUT);
        [ | lia | intros i Hi; simpl; now apply Hb | simpl; exact Hc ].
      destruct (Z.eqb_spec (Z.of_nat (SPI_TIMEOUT - k)) 0) as [E|_]; [lia|].
      match goal with
      | |- context [busy_wait BSY SPI_TIMEOUT ?s] =>
          pose proof (busy_wait_datar BSY SPI_TIMEOUT s) as Hd;
          destruct (busy_wait BSY SPI_TIMEOUT s) as [t2 st2]
      end.
      exact Hd.
    + apply SPI_WriteByte_after_timeout.
      intros i Hi; specialize (Hall i Hi).
      now destruct (TXE (statr st (reads st + i))).
Qed.

Lemma SPI_WriteByte_stores_unless_witness :
  ~ ready_on_last_read spi_ready
  /\ datar (LCD_HAL_SPI_WriteByte 0x2C spi_ready) = datar spi_ready ++ [0x2C].
Proof.
  assert (H : ~ ready_on_last_read spi_ready).
  { intros [Hbusy _].
    assert (H0 : (0 < SPI_TIMEOUT)%nat) by (unfold SPI_TIMEOUT; lia).
    specialize (Hbusy O H0); discriminate Hbusy. }
  split; [exact H|].
  exact (proj2 (SPI_WriteByte_stores_unless 0x2C spi_ready) H).
Defined.

(** X7.  On a peripheral whose transmit buffer is empty whenever it is
    polled, nothing is lost and nothing is added: if the data register
    had received exactly the bytes of the trace before, it has received
    exactly the bytes of the trace after any sequence of operations. *)
Theorem wire_matches_trace os st :
  (forall n, TXE (statr st n) = true) ->
  datar st = bytes_of (trace st) ->
  datar (run_ops os st) = bytes_of (trace (run_ops os st)).
Proof. exact (wire_follows_trace os st). Qed.

Lemma wire_matches_trace_witness :
  datar (run_ops [SetWindow 0 0 240 240; FillRect 0 0 2 1 0xF800] spi_ready)
  = bytes_of
      (trace (run_ops [SetWindow 0 0 240 240; FillRect 0 0 2 1 0xF800]
                spi_ready)).
Proof.
  apply (wire_matches_trace
           [SetWindow 0 0 240 240; FillRect 0 0 2 1 0xF800] spi_ready).
  - intros n; reflexivity.
  - reflexivity.
Defined.

(** ** The frames of a fill, clamped *)

Lemma FillRect_frames_clamped x0 y0 x1 y1 color :
  0 <= x0 -> 0 <= y0 ->
  FillRect_frames x0 y0 x1 y1 color
  = if (x0 <? Z.min x1 240) && (y0 <? Z.min y1 240)
    then window_frames x0 y0 (Z.min x1 240 - 1) (Z.min y1 240 - 1)
           ++ [Burst (pixel_stream color
                        (Z.to_nat ((Z.min x1 240 - x0) * (Z.min y1 240 - y0))))]
    else [].
Proof.
  intros Hx Hy; unfold FillRect_frames, LCD_WIDTH, LCD_HEIGHT.
  replace (if x1 >? 240 then 240 else x1) with (Z.min x1 240)
    by (destruct (x1 >? 240) eqn:E; lia).
  replace (if y1 >? 240 then 240 else y1) with (Z.min y1 240)
    by (destruct (y1 >? 240) eqn:E; lia).
  destruct (x0 >=? 240) eqn:E1;
    [replace (x0 <? Z.min x1 240) with false by lia; reflexivity|].
  destruct (y0 >=? 240) eqn:E2;
    [replace (y0 <? Z.min y1 240) with false by lia;
     now rewrite andb_false_r|].
  cbv zeta; simpl orb; cbv iota.
  destruct (x0 >=? Z.min x1 240) eqn:E3;
    [replace (x0 <? Z.min x1 240) with false by lia; reflexivity|].
  destruct (y0 >=? Z.min y1 240) eqn:E4;
    [replace (y0 <? Z.min y1 240) with false by lia;
     now rewrite andb_false_r|].
  replace (x0 <? Z.min x1 240) with true by lia.
  replace (y0 <? Z.min y1 240) with true by lia.
  simpl orb; cbv iota; simpl andb; cbv iota.
  unfold wrap16; rewrite !Z.mod_small by lia.
  rewrite !land_0xFF_small by lia.
  rewrite <- Z2Nat.inj_mul by lia; reflexivity.
Qed.

Lemma FillRect_valid_trace x0 y0 x1 y1 color st :
  0 <= x0 < x1 -> x1 <= 240 -> 0 <= y0 < y1 -> y1 <= 240 ->
  trace (GC9A01_FillRect x0 y0 x1 y1 color st)
  = trace st
    ++ frames_events (window_frames x0 y0 (x1 - 1) (y1 - 1))
    ++ funDigitalWrite LCD_DC_PIN true
       :: map SPI_WriteByte
            (pixel_stream color (Z.to_nat ((x1 - x0) * (y1 - y0))))
       ++ [funDigitalWrite LCD_CS_PIN true].
Proof.
  intros Hx Hx1 Hy Hy1.
  rewrite framed_FillRect, FillRect_frames_clamped by lia.
  rewrite !Z.min_l by lia.
  replace (x0 <? x1) with true by lia.
  replace (y0 <? y1) with true by lia.
  simpl andb; cbv iota.
  unfold frames_events; rewrite flat_map_app.
  cbn [flat_map frame_events]; rewrite app_nil_r; reflexivity.
Qed.

(** ** Lines the engine leaves alone, and where it leaves the others *)

Section QuietPins.

Lemma never_drives_app p a b :
  never_drives p (a ++ b) = never_drives p a && never_drives p b.
Proof. apply forallb_app. Qed.

Lemma never_drives_bytes p bs : never_drives p (map SPI_WriteByte bs) = true.
Proof. induction bs; simpl; auto. Qed.

Lemma never_drives_frames p fs :
  forallb (fun f => never_drives p (frame_events f)) fs = true ->
  never_drives p (frames_events fs) = true.
Proof.
  induction fs as [|f fs IH]; simpl; [reflexivity|].
  intros H; apply andb_prop in H as [Hf Hfs].
  unfold frames_events in *; simpl flat_map.
  now rewrite never_drives_app, Hf, IH.
Qed.

Lemma never_drives_window p x0 y0 x1 y1 :
  p = LCD_BL_PIN \/ p = LCD_RST_PIN ->
  never_drives p (frames_events (window_frames x0 y0 x1 y1)) = true.
Proof. intros [-> | ->]; reflexivity. Qed.

Lemma never_drives_fill p x0 y0 x1 y1 color :
  p = LCD_BL_PIN \/ p = LCD_RST_PIN ->
  never_drives p (frames_events (FillRect_frames x0 y0 x1 y1 color)) = true.
Proof.
  intros Hp; unfold FillRect_frames.
  destruct (_ || _); [reflexivity|]; cbv zeta.
  destruct (_ || _); [reflexivity|].
  unfold frames_events; rewrite flat_map_app.
  rewrite never_drives_app.
  fold (frames_events
          (window_frames (Z.land x0 0xFF) (Z.land y0 0xFF)
             (Z.land ((if x1 >? LCD_WIDTH then LCD_WIDTH else x1) - 1) 0xFF)
             (Z.land ((if y1 >? LCD_HEIGHT then LCD_HEIGHT else y1) - 1) 0xFF))).
  rewrite never_drives_window by exact Hp.
  cbn [flat_map frame_events andb]; rewrite app_nil_r.
  change (funDigitalWrite LCD_DC_PIN true :: ?l)
    with ([funDigitalWrite LCD_DC_PIN true] ++ l).
  rewrite !never_drives_app, never_drives_bytes.
  destruct Hp as [-> | ->]; reflexivity.
Qed.

End QuietPins.

(** X8.  No drawing-interface operation ever drives the backlight line,
    and only [GC9A01_Init] drives the reset line: a sequence of
    operations without it leaves reset untouched. *)
Theorem engine_leaves_backlight_and_reset os st :
  exists evs,
    trace (run_ops os st) = trace st ++ evs
    /\ never_drives LCD_BL_PIN evs = true
    /\ (~ In Initialize os -> never_drives LCD_RST_PIN evs = true).
Proof.
  exists (frames_events (flat_map op_frames os)).
  split; [apply framed_run_ops|].
  assert (G : forall p,
             (p = LCD_BL_PIN \/ (p = LCD_RST_PIN /\ ~ In Initialize os)) ->
             never_drives p (frames_events (flat_map op_frames os)) = true).
  { intros p Hp; induction os as [|o os IH]; [reflexivity|].
    change (flat_map op_frames (o :: os))
      with (op_frames o ++ flat_map op_frames os).
    unfold frames_events; rewrite flat_map_app.
    fold (frames_events (op_frames o));
      fold (frames_events (flat_map op_frames os)).
    rewrite never_drives_app, IH.
    - rewrite andb_true_r.
      assert (Hp' : p = LCD_BL_PIN \/ p = LCD_RST_PIN) by tauto.
      destruct o as [|x0 y0 x1 y1|x0 y0 x1 y1 color|color];
        cbn [op_frames].
      + destruct Hp as [-> | [-> Hno]]; [reflexivity|].
        exfalso; apply Hno; now left.
      + now apply never_drives_window.
      + now apply never_drives_fill.
      + now apply never_drives_fill.
    - destruct Hp as [Hp | [Hp Hno]]; [now left|].
      right; split; [exact Hp|]; intros Hin; apply Hno; now right. }
  split.
  - apply G; now left.
  - intros Hno; apply G; right; auto.
Qed.

Lemma engine_leaves_backlight_and_reset_witness :
  exists evs,
    trace (run_ops [SetWindow 0 0 240 240; FillScreen 0xF800] spi_ready)
    = trace spi_ready ++ evs
    /\ never_drives LCD_BL_PIN evs = true
    /\ (~ In Initialize [SetWindow 0 0 240 240; FillScreen 0xF800] ->
        never_drives LCD_RST_PIN evs = true).
Proof.
  exact (engine_leaves_backlight_and_reset
           [SetWindow 0 0 240 240; FillScreen 0xF800] spi_ready).
Defined.

(** X9.  Where the lines are left.  After [GC9A01_SetWindow] chip-select
    is low and the data/command line is low (command mode): whoever
    streams pixels next must select data mode itself.  After a fill of a
    valid rectangle chip-select is high and the data/command line is
    high.  After [GC9A01_Init] chip-select and data/command are low and
    reset is high. *)
Theorem lines_after_operations :
  (forall x0 y0 x1 y1 st,
      level LCD_CS_PIN (trace (GC9A01_SetWindow x0 y0 x1 y1 st)) = Some FUN_LOW
      /\ level LCD_DC_PIN (trace (GC9A01_SetWindow x0 y0 x1 y1 st))
         = Some FUN_LOW)
  /\ (forall x0 y0 x1 y1 color st,
      0 <= x0 < x1 -> x1 <= 240 -> 0 <= y0 < y1 -> y1 <= 240 ->
      level LCD_CS_PIN (trace (GC9A01_FillRect x0 y0 x1 y1 color st))
      = Some FUN_HIGH
      /\ level LCD_DC_PIN (trace (GC9A01_FillRect x0 y0 x1 y1 color st))
         = Some FUN_HIGH)
  /\ (forall st,
      level LCD_CS_PIN (trace (GC9A01_Init st)) = Some FUN_LOW
      /\ level LCD_DC_PIN (trace (GC9A01_Init st)) = Some FUN_LOW
      /\ level LCD_RST_PIN (trace (GC9A01_Init st)) = Some FUN_HIGH).
Proof.
  split; [|split].
  - intros x0 y0 x1 y1 st; rewrite framed_SetWindow, !level_app.
    split; reflexivity.
  - intros x0 y0 x1 y1 color st Hx Hx1 Hy Hy1.
    rewrite FillRect_valid_trace, !level_app by assumption.
    rewrite !level_from_app.
    change (funDigitalWrite LCD_DC_PIN true :: ?l)
      with ([funDigitalWrite LCD_DC_PIN true] ++ l).
    rewrite !level_from_app, !level_from_bytes.
    split; reflexivity.
  - intros st; rewrite framed_Init, !level_app.
    repeat split; reflexivity.
Qed.

Lemma lines_after_operations_witness :
  level LCD_CS_PIN (trace (GC9A01_FillRect 10 10 20 20 0x07E0 spi_ready))
  = Some FUN_HIGH
  /\ level LCD_DC_PIN (trace (GC9A01_FillRect 10 10 20 20 0x07E0 spi_ready))
     = Some FUN_HIGH.
Proof.
  apply (proj1 (proj2 lines_after_operations) 10 10 20 20 0x07E0 spi_ready);
    lia.
Defined.

(** ** Clamping, addressing and colors *)

Lemma FillRect_noop_when x0 y0 x1 y1 color st :
  (x0 <? Z.min x1 240) && (y0 <? Z.min y1 240) = false ->
  GC9A01_FillRect x0 y0 x1 y1 color st = st.
Proof.
  intros H; rewrite FillRect_unfold; unfold LCD_WIDTH, LCD_HEIGHT.
  destruct (x0 >=? 240) eqn:E1; [reflexivity|].
  destruct (y0 >=? 240) eqn:E2; [reflexivity|].
  cbv zeta; simpl orb; cbv iota.
  destruct (x0 >=? (if x1 >? 240 then 240 else x1)) eqn:E3; [reflexivity|].
  destruct (y0 >=? (if y1 >? 240 then 240 else y1)) eqn:E4; [reflexivity|].
  exfalso; apply andb_false_iff in H.
  destruct (x1 >? 240) eqn:Ex; destruct (y1 >? 240) eqn:Ey; lia.
Qed.

(** X10.  Clamping in general: for all arguments, filling up to
    [(x1, y1)] is the same call as filling up to
    [(min x1 240, min y1 240)]: same final world, so same bytes, pin
    writes and register accesses. *)
Theorem FillRect_clamps x0 y0 x1 y1 color st :
  GC9A01_FillRect x0 y0 x1 y1 color st
  = GC9A01_FillRect x0 y0 (Z.min x1 240) (Z.min y1 240) color st.
Proof.
  rewrite !FillRect_unfold; unfold LCD_WIDTH, LCD_HEIGHT; cbv zeta.
  replace (if Z.min x1 240 >? 240 then 240 else Z.min x1 240)
    with (if x1 >? 240 then 240 else x1)
    by (destruct (x1 >? 240) eqn:E; destruct (Z.min x1 240 >? 240) eqn:E';
        lia).
  replace (if Z.min y1 240 >? 240 then 240 else Z.min y1 240)
    with (if y1 >? 240 then 240 else y1)
    by (destruct (y1 >? 240) eqn:E; destruct (Z.min y1 240 >? 240) eqn:E';
        lia).
  reflexivity.
Qed.

(** X11.  A fill never addresses outside the panel and never streams a
    pixel count other than the area it addressed: for non-negative start
    coordinates and any end coordinates, either the call does nothing at
    all, or it sends one window with [x0 <= xe <= 239] and
    [y0 <= ye <= 239] followed by one burst of exactly
    [2 * (xe - x0 + 1) * (ye - y0 + 1)] bytes. *)
Theorem FillRect_window_in_panel x0 y0 x1 y1 color st :
  0 <= x0 -> 0 <= y0 ->
  GC9A01_FillRect x0 y0 x1 y1 color st = st
  \/ exists xe ye px,
      trace (GC9A01_FillRect x0 y0 x1 y1 color st)
      = trace st
        ++ frames_events (window_frames x0 y0 xe ye ++ [Burst px])
      /\ x0 <= xe <= 239 /\ y0 <= ye <= 239
      /\ Z.of_nat (length px) = 2 * (xe - x0 + 1) * (ye - y0 + 1).
Proof.
  intros Hx Hy.
  destruct ((x0 <? Z.min x1 240) && (y0 <? Z.min y1 240)) eqn:E.
  - right; apply andb_prop in E as [Ex Ey].
    exists (Z.min x1 240 - 1), (Z.min y1 240 - 1),
      (pixel_stream color
         (Z.to_nat ((Z.min x1 240 - x0) * (Z.min y1 240 - y0)))).
    split; [|split; [lia|split; [lia|]]].
    + rewrite framed_FillRect, FillRect_frames_clamped, Ex, Ey by lia.
      reflexivity.
    + rewrite length_pixel_stream, Nat2Z.inj_mul, Z2Nat.id by nia.
      simpl Z.of_nat; ring.
  - left; now apply FillRect_noop_when.
Qed.

Lemma FillRect_window_in_panel_witness :
  GC9A01_FillRect 200 230 999 65535 0x001F spi_ready = spi_ready
  \/ exists xe ye px,
      trace (GC9A01_FillRect 200 230 999 65535 0x001F spi_ready)
      = trace spi_ready
        ++ frames_events (window_frames 200 230 xe ye ++ [Burst px])
      /\ 200 <= xe <= 239 /\ 230 <= ye <= 239
      /\ Z.of_nat (length px) = 2 * (xe - 200 + 1) * (ye - 230 + 1).
Proof.
  apply (FillRect_window_in_panel 200 230 999 65535 0x001F spi_ready); lia.
Defined.

Lemma mod_256_pred a b :
  (a - 1) mod 256 = (b - 1) mod 256 <-> a mod 256 = b mod 256.
Proof.
  split; intros H.
  - replace a with ((a - 1) + 1) by ring; replace b with ((b - 1) + 1) by ring.
    rewrite <- (Z.add_mod_idemp_l (a - 1)), <- (Z.add_mod_idemp_l (b - 1)) by lia.
    now rewrite H.
  - rewrite <- (Zminus_mod_idemp_l a), <- (Zminus_mod_idemp_l b).
    now rewrite H.
Qed.

(** X12.  [GC9A01_SetWindow] sees its coordinates modulo 256 and
    nothing else: two calls whose coordinates agree modulo 256 are the
    same call (so a coordinate of 300 addresses column or row 44), and
    two calls that emit the same trace have coordinates that agree modulo
    256. *)
Theorem SetWindow_modulo_256 x0 y0 x1 y1 x0' y0' x1' y1' st :
  (x0 mod 256 = x0' mod 256 /\ y0 mod 256 = y0' mod 256
   /\ x1 mod 256 = x1' mod 256 /\ y1 mod 256 = y1' mod 256 ->
   GC9A01_SetWindow x0 y0 x1 y1 st = GC9A01_SetWindow x0' y0' x1' y1' st)
  /\ (trace (GC9A01_SetWindow x0 y0 x1 y1 st)
      = trace (GC9A01_SetWindow x0' y0' x1' y1' st) ->
      x0 mod 256 = x0' mod 256 /\ y0 mod 256 = y0' mod 256
      /\ x1 mod 256 = x1' mod 256 /\ y1 mod 256 = y1' mod 256).
Proof.
  split.
  - intros (Hx0 & Hy0 & Hx1 & Hy1).
    apply (proj2 (mod_256_pred _ _)) in Hx1.
    apply (proj2 (mod_256_pred _ _)) in Hy1.
    unfold GC9A01_SetWindow.
    now rewrite !land_0xFF, Hx0, Hy0, Hx1, Hy1.
  - rewrite !framed_SetWindow; intros H.
    apply app_inv_head in H.
    unfold window_frames, frames_events in H; cbn [flat_map frame_events app] in H.
    injection H as E1 E2 E3 E4.
    rewrite !land_0xFF in *.
    apply (proj1 (mod_256_pred _ _)) in E2.
    apply (proj1 (mod_256_pred _ _)) in E4.
    repeat split; assumption.
Qed.

Lemma SetWindow_modulo_256_witness :
  GC9A01_SetWindow 0 0 300 300 spi_ready = GC9A01_SetWindow 0 0 44 44 spi_ready.
Proof.
  apply (proj1 (SetWindow_modulo_256 0 0 300 300 0 0 44 44 spi_ready)).
  repeat split; reflexivity.
Defined.

Lemma color_bytes color :
  0 <= color < 65536 ->
  Z.land (Z.shiftr color 8) 0xFF = color / 256
  /\ Z.land color 0xFF = color mod 256.
Proof.
  intros Hc; rewrite !land_0xFF, Z.shiftr_div_pow2 by lia.
  change (2 ^ 8) with 256; split; [|reflexivity].
  apply Z.mod_small; split; [apply Z.div_pos; lia|].
  apply Z.div_lt_upper_bound; lia.
Qed.

Lemma decode_pixel_stream color n :
  0 <= color < 65536 ->
  decode_pixels (pixel_stream color n) = repeat color n
  /\ Forall (fun b => 0 <= b < 256) (pixel_stream color n).
Proof.
  intros Hc; destruct (color_bytes color Hc) as [Ehi Elo].
  induction n as [|n [IHd IHf]]; [split; [reflexivity|constructor]|].
  rewrite pixel_stream_cons, Ehi, Elo; split.
  - cbn [decode_pixels repeat]; rewrite IHd; f_equal.
    pose proof (Z.div_mod color 256 ltac:(lia)); lia.
  - constructor; [|constructor; [|exact IHf]].
    + split; [apply Z.div_pos; lia | apply Z.div_lt_upper_bound; lia].
    + apply Z.mod_pos_bound; lia.
Qed.

(** X13.  The color survives the wire: for a valid rectangle and a
    16-bit color, the data bytes of the fill are all in [0, 255], and
    read back two at a time, high byte first, they give the color once
    per pixel of the rectangle. *)
Theorem FillRect_color_round_trip x0 y0 x1 y1 color st :
  0 <= x0 < x1 -> x1 <= 240 -> 0 <= y0 < y1 -> y1 <= 240 ->
  0 <= color < 65536 ->
  exists px,
    trace (GC9A01_FillRect x0 y0 x1 y1 color st)
    = trace (GC9A01_SetWindow x0 y0 x1 y1 st)
      ++ funDigitalWrite LCD_DC_PIN true
         :: map SPI_WriteByte px ++ [funDigitalWrite LCD_CS_PIN true]
    /\ Forall (fun b => 0 <= b < 256) px
    /\ decode_pixels px = repeat color (Z.to_nat ((x1 - x0) * (y1 - y0))).
Proof.
  intros Hx Hx1 Hy Hy1 Hc.
  exists (pixel_stream color (Z.to_nat ((x1 - x0) * (y1 - y0)))).
  destruct (decode_pixel_stream color (Z.to_nat ((x1 - x0) * (y1 - y0))) Hc)
    as [Hd Hf].
  split; [|split; assumption].
  rewrite FillRect_valid_trace, framed_SetWindow by assumption.
  rewrite !land_0xFF_small, <- app_assoc by lia.
  reflexivity.
Qed.

Lemma FillRect_color_round_trip_witness :
  exists px,
    trace (GC9A01_FillRect 10 10 20 20 0x07E0 spi_ready)
    = trace (GC9A01_SetWindow 10 10 20 20 spi_ready)
      ++ funDigitalWrite LCD_DC_PIN true
         :: map SPI_WriteByte px ++ [funDigitalWrite LCD_CS_PIN true]
    /\ Forall (fun b => 0 <= b < 256) px
    /\ decode_pixels px = repeat 0x07E0 (Z.to_nat ((20 - 10) * (20 - 10))).
Proof.
  apply (FillRect_color_round_trip 10 10 20 20 0x07E0 spi_ready); lia.
Defined.

(** ** The transfer helpers that hold chip-select *)

Section OneSpan.









End OneSpan.






(** ** The stripes *)



